(** * issuebot: the pull-request disposition engine

    A shallow embedding of the package [cmd/issuebot] -- the classifiers
    of commits, the debounce cache, the stub-issue manager and
    [checkPullRequest] -- and the properties its design document states
    about it.

    Conventions of the embedding:
    - Go strings are byte strings ([string]).  The functions of Go's
      [strings] package are modelled on their ASCII behaviour: bytes
      outside ASCII are neither white space nor letters with a case.
    - Go's [int] and [time.Duration] are 64-bit; they are [Z] with the
      wrap-around, respectively the saturation, written out.
    - Every remote call of the GitHub client is an event of a trace; a
      call is answered by a [Client], a record of response functions.
    - [log.Fatalf] and run-time panics end the process; they are outcomes
      of the computation, next to normal completion. *)

From Stdlib Require Import ZArith Lia Bool List Ascii String.
From Stdlib Require DecimalString DecimalPos DecimalZ.
From stdpp Require Import gmap strings list fin_maps.

Local Open Scope string_scope.
Local Open Scope Z_scope.

(* ===================================================================== *)
(** ** Package [strings] (the functions issuebot uses) *)
(* ===================================================================== *)

Module strings.

(** [strings.HasPrefix s prefix] *)
Fixpoint HasPrefix (s prefix : string) {struct prefix} : bool :=
  match prefix, s with
  | EmptyString, _ => true
  | String p prefix', String c s' => Ascii.eqb c p && HasPrefix s' prefix'
  | String _ _, EmptyString => false
  end.

(** [strings.Contains s substr] *)
Fixpoint Contains (s substr : string) : bool :=
  HasPrefix s substr ||
  match s with
  | EmptyString => false
  | String _ s' => Contains s' substr
  end.

Definition isUpper (c : ascii) : bool :=
  (65 <=? nat_of_ascii c)%nat && (nat_of_ascii c <=? 90)%nat.

Definition toLowerByte (c : ascii) : ascii :=
  if isUpper c then ascii_of_nat (nat_of_ascii c + 32) else c.

(** [strings.ToLower s] *)
Fixpoint ToLower (s : string) : string :=
  match s with
  | EmptyString => EmptyString
  | String c s' => String (toLowerByte c) (ToLower s')
  end.

(** [strings.EqualFold s t]: equality under simple case folding. *)
Fixpoint EqualFold (s t : string) : bool :=
  match s, t with
  | EmptyString, EmptyString => true
  | String a s', String b t' =>
      Ascii.eqb (toLowerByte a) (toLowerByte b) && EqualFold s' t'
  | _, _ => false
  end.

(** The white space of [strings.Fields] on ASCII input:
    tab, line feed, vertical tab, form feed, carriage return, space. *)
Definition isSpace (c : ascii) : bool :=
  let n := nat_of_ascii c in
  ((9 <=? n)%nat && (n <=? 13)%nat) || (n =? 32)%nat.

Definition consField (w : string) (ws : list string) : list string :=
  match w with
  | EmptyString => ws
  | _ => w :: ws
  end.

(** [fieldsFrom s] is the field being read at the head of [s] (empty
    when [s] starts with white space) and the fields after it. *)
Fixpoint fieldsFrom (s : string) : string * list string :=
  match s with
  | EmptyString => (EmptyString, [])
  | String c s' =>
      let (w, ws) := fieldsFrom s' in
      if isSpace c then (EmptyString, consField w ws) else (String c w, ws)
  end.

(** [strings.Fields s] *)
Definition Fields (s : string) : list string :=
  let (w, ws) := fieldsFrom s in consField w ws.

(** [strings.Join elems sep] *)
Fixpoint Join (elems : list string) (sep : string) : string :=
  match elems with
  | [] => EmptyString
  | [e] => e
  | e :: rest => e ++ sep ++ Join rest sep
  end.

(** [splitFrom sep s skip]: the pieces of [s], of which the first
    [skip] bytes are the tail of a separator already recognised. *)
Fixpoint splitFrom (sep s : string) (skip : nat) : string * list string :=
  match s with
  | EmptyString => (EmptyString, [])
  | String c s' =>
      match skip with
      | S k => splitFrom sep s' k
      | O =>
          if HasPrefix s sep then
            let (w, ws) := splitFrom sep s' (String.length sep - 1) in
            (EmptyString, w :: ws)
          else
            let (w, ws) := splitFrom sep s' O in
            (String c w, ws)
      end
  end.

(** [strings.Split s sep], for a separator that is not empty. *)
Definition Split (s sep : string) : list string :=
  let (w, ws) := splitFrom sep s O in w :: ws.

End strings.

(* ===================================================================== *)
(** ** Dispositions *)
(* ===================================================================== *)

(** [pullRequestStatus] indicates the disposition of a PR.  The values
    are ordered, with higher values being better. *)
Inductive pullRequestStatus : Set :=
| prFailed   (* failed, post a notice *)
| prSkipped  (* manually skipped (skip-issuebot) *)
| prCleanup  (* manually skipped (#cleanup) *)
| prSmall    (* diff is small *)
| prRevert   (* found a revert commit *)
| prBot      (* author is a well-known bot *)
| prLinked.  (* found a linked issue *)

(** The byte value [iota] gives each constant. *)
Definition rank (s : pullRequestStatus) : Z :=
  match s with
  | prFailed => 0
  | prSkipped => 1
  | prCleanup => 2
  | prSmall => 3
  | prRevert => 4
  | prBot => 5
  | prLinked => 6
  end.

Definition status_eqb (a b : pullRequestStatus) : bool := rank a =? rank b.
Definition status_ltb (a b : pullRequestStatus) : bool := rank a <? rank b.
Definition status_leb (a b : pullRequestStatus) : bool := rank a <=? rank b.

(** [if disp > status { status = disp }] *)
Definition adopt (status disp : pullRequestStatus) : pullRequestStatus :=
  if status_ltb status disp then disp else status.

(* ===================================================================== *)
(** ** The commit-message classifier *)
(* ===================================================================== *)

Definition newline : string := String (ascii_of_nat 10) EmptyString.

Definition verbs : list string :=
  ["close"; "closes"; "closed"; "fix"; "fixes"; "fixed";
   "resolve"; "resolves"; "resolved"; "updates"; "for"].

(** The inner loop of [checkCommitMessage], over the verbs, for one
    lower-cased line: [true] when it reaches [return prLinked]. *)
Fixpoint scanVerbs (lower : string) (vs : list string) : bool :=
  match vs with
  | [] => false
  | verb :: vs' =>
      if negb (strings.HasPrefix lower verb) then scanVerbs lower vs'
      else if strings.Contains lower "#" || strings.Contains lower "github.com"
           then true
           else scanVerbs lower vs'
  end.

(** The outer loop of [checkCommitMessage], from line [idx] on:
    [Some d] when the loop returns [d], [None] when it runs to its end. *)
Fixpoint scanLines (idx : nat) (lines : list string) : option pullRequestStatus :=
  match lines with
  | [] => None
  | line :: rest =>
      if Nat.eqb idx 0 && strings.HasPrefix line "Revert" then Some prRevert
      else
        let lower := strings.ToLower line in
        if scanVerbs lower verbs then Some prLinked
        else scanLines (S idx) rest
  end.

Definition checkCommitMessage (message : string) : pullRequestStatus :=
  let lines := strings.Split message newline in
  match scanLines 0 lines with
  | Some d => d
  | None =>
      if strings.Contains message "skip-issuebot" then prSkipped
      else if strings.Contains message "#cleanup" then prCleanup
      else prFailed
  end.

(* ===================================================================== *)
(** ** Package [regexp]: leftmost-first matching with submatches *)
(* ===================================================================== *)

Module regexp.

(** The fragment of RE2 syntax that issuebot's patterns are written
    in.  [Capture i r] is the [i]-th parenthesized subexpression,
    counted from 1 by its opening parenthesis. *)
Inductive syntax : Type :=
| EmptyMatch
| Lit (c : ascii)
| AnyCharNotNL
| CharClass (ranges : list (ascii * ascii))
| Concat (r1 r2 : syntax)
| Alternate (r1 r2 : syntax)
| Star (r : syntax)
| Capture (i : nat) (r : syntax)
| BeginText
| EndText.

Definition Plus (r : syntax) : syntax := Concat r (Star r).

Fixpoint Literal (s : string) : syntax :=
  match s with
  | EmptyString => EmptyMatch
  | String c s' => Concat (Lit c) (Literal s')
  end.

(** A compiled expression; [foldCase] is the flag [(?i)]. *)
Record Regexp : Type := { expr : syntax; foldCase : bool }.

Fixpoint countCaptures (r : syntax) : nat :=
  match r with
  | Concat r1 r2 | Alternate r1 r2 => (countCaptures r1 + countCaptures r2)%nat
  | Star r1 => countCaptures r1
  | Capture _ r1 => S (countCaptures r1)
  | _ => O
  end.

(** [Regexp.NumSubexp] *)
Definition NumSubexp (re : Regexp) : nat := countCaptures (expr re).

Definition inRange (c : ascii) (r : ascii * ascii) : bool :=
  (nat_of_ascii (fst r) <=? nat_of_ascii c)%nat &&
  (nat_of_ascii c <=? nat_of_ascii (snd r))%nat.

Definition isLower (c : ascii) : bool :=
  (97 <=? nat_of_ascii c)%nat && (nat_of_ascii c <=? 122)%nat.

Definition toUpperByte (c : ascii) : ascii :=
  if isLower c then ascii_of_nat (nat_of_ascii c - 32) else c.

Definition classMatches (fold : bool) (ranges : list (ascii * ascii)) (c : ascii) : bool :=
  existsb (inRange c) ranges ||
  (fold && (existsb (inRange (strings.toLowerByte c)) ranges ||
            existsb (inRange (toUpperByte c)) ranges)).

Definition litMatches (fold : bool) (p c : ascii) : bool :=
  if fold then Ascii.eqb (strings.toLowerByte c) (strings.toLowerByte p)
  else Ascii.eqb c p.

(** The text of each subexpression that took part in the match; the
    binding made last is first. *)
Definition captures : Type := list (nat * string).

Fixpoint capture (i : nat) (cs : captures) : string :=
  match cs with
  | [] => EmptyString
  | (j, t) :: cs' => if Nat.eqb i j then t else capture i cs'
  end.

(** [run fold r s pos cs k]: match [r] at the head of [s], which is at
    offset [pos] of the text, and continue with [k]; alternatives are
    tried in the order a backtracking matcher prefers them, which is
    the match that leftmost-first semantics selects. *)
Fixpoint run (fold : bool) (r : syntax) (s : string) (pos : nat) (cs : captures)
    (k : string -> nat -> captures -> option (nat * captures))
    : option (nat * captures) :=
  match r with
  | EmptyMatch => k s pos cs
  | Lit p =>
      match s with
      | String c s' => if litMatches fold p c then k s' (S pos) cs else None
      | EmptyString => None
      end
  | AnyCharNotNL =>
      match s with
      | String c s' =>
          if Nat.eqb (nat_of_ascii c) 10 then None else k s' (S pos) cs
      | EmptyString => None
      end
  | CharClass ranges =>
      match s with
      | String c s' => if classMatches fold ranges c then k s' (S pos) cs else None
      | EmptyString => None
      end
  | Concat r1 r2 =>
      run fold r1 s pos cs (fun s' pos' cs' => run fold r2 s' pos' cs' k)
  | Alternate r1 r2 =>
      match run fold r1 s pos cs k with
      | Some res => Some res
      | None => run fold r2 s pos cs k
      end
  | Star r1 =>
      (fix loop (n : nat) (s : string) (pos : nat) (cs : captures) :=
         match n with
         | O => k s pos cs
         | S n' =>
             match run fold r1 s pos cs
                     (fun s' pos' cs' =>
                        if Nat.eqb pos' pos then None else loop n' s' pos' cs') with
             | Some res => Some res
             | None => k s pos cs
             end
         end) (String.length s) s pos cs
  | Capture i r1 =>
      run fold r1 s pos cs
        (fun s' pos' cs' => k s' pos' ((i, substring 0 (pos' - pos) s) :: cs'))
  | BeginText => if Nat.eqb pos 0 then k s pos cs else None
  | EndText =>
      match s with
      | EmptyString => k s pos cs
      | String _ _ => None
      end
  end.

(** The result slice of [FindStringSubmatch] for a match of
    [s] from [pos] to [e]: the whole match, then one string for each
    subexpression, empty for one that took no part. *)
Definition submatches (re : Regexp) (s : string) (pos e : nat) (cs : captures)
    : list string :=
  substring 0 (e - pos) s ::
  List.map (fun i => capture i cs) (seq 1 (NumSubexp re)).

Fixpoint findFrom (re : Regexp) (s : string) (pos : nat) : option (list string) :=
  match run (foldCase re) (expr re) s pos [] (fun _ e cs => Some (e, cs)) with
  | Some (e, cs) => Some (submatches re s pos e cs)
  | None =>
      match s with
      | EmptyString => None
      | String _ s' => findFrom re s' (S pos)
      end
  end.

(** [Regexp.FindStringSubmatch]; [None] is the nil slice. *)
Definition FindStringSubmatch (re : Regexp) (s : string) : option (list string) :=
  findFrom re s 0.

Definition digit : syntax := CharClass [("0"%char, "9"%char)].

Definition word_or_hyphen : syntax :=
  CharClass [("-"%char, "-"%char); ("0"%char, "9"%char); ("A"%char, "Z"%char);
             ("_"%char, "_"%char); ("a"%char, "z"%char)].

End regexp.

(* ===================================================================== *)
(** ** Package [strconv] *)
(* ===================================================================== *)

Module strconv.

Definition maxInt : Z := 2 ^ 63 - 1.
Definition minInt : Z := - 2 ^ 63.

Definition isDigit (c : ascii) : bool :=
  (48 <=? nat_of_ascii c)%nat && (nat_of_ascii c <=? 57)%nat.

(** The value of a run of decimal digits read after [acc]; [None] when
    a byte is not a digit. *)
Fixpoint digitsValue (s : string) (acc : Z) : option Z :=
  match s with
  | EmptyString => Some acc
  | String c s' =>
      if isDigit c
      then digitsValue s' (10 * acc + (Z.of_nat (nat_of_ascii c) - 48))
      else None
  end.

(** [strconv.Atoi s]: the value and whether an error is returned.  A
    syntax error gives 0, a value out of range the nearest bound. *)
Definition Atoi (s : string) : Z * bool :=
  let parse (neg : bool) (ds : string) :=
    match ds with
    | EmptyString => (0, true)
    | _ =>
        match digitsValue ds 0 with
        | None => (0, true)
        | Some v =>
            let n := if neg then - v else v in
            if maxInt <? n then (maxInt, true)
            else if n <? minInt then (minInt, true)
            else (n, false)
        end
    end in
  match s with
  | String "+"%char ds => parse false ds
  | String "-"%char ds => parse true ds
  | _ => parse false s
  end.

(** [%d] of [fmt.Sprintf] *)
Definition Itoa (n : Z) : string :=
  DecimalString.NilZero.string_of_int (Z.to_int n).

End strconv.

(* ===================================================================== *)
(** ** Data of the GitHub API that the engine reads *)
(* ===================================================================== *)

(** [github.CommitAuthor]: both fields are pointers and may be nil. *)
Record CommitAuthor : Type := { Name : option string; Email : option string }.

(** [github.RepositoryCommit] as [GetCommit] returns it: the message and
    the author of its [Commit], and the total of its [Stats]. *)
Record RepositoryCommit : Type :=
  { Message : string; Author : option CommitAuthor; StatsTotal : Z }.

Record Repository : Type :=
  { OwnerLogin : string; RepoName : string; FullName : string }.

Record PullRequest : Type :=
  { Number : Z; UserLogin : string; HeadSHA : string }.

(** A [pullRequest] bundles a pull request and its affiliated repository. *)
Record pullRequest : Type := { repo : Repository; pr : PullRequest }.

Record Issue : Type := { IssueNumber : Z; IssueTitle : string }.

Record IssueRequest : Type :=
  { ReqTitle : string; ReqAssignee : string; ReqBody : string;
    ReqLabels : list string }.

(** The flags and the compiled [--bot-author-regexp]; [None] is the nil
    [botAuthorRE] of a flag left empty. *)
Record Config : Type :=
  { enableStubIssues : bool; botAuthorRE : option regexp.Regexp }.

(* ===================================================================== *)
(** ** Outcomes, remote calls and traces *)
(* ===================================================================== *)

(** How a computation of the process ends. *)
Inductive outcome (A : Type) : Type :=
| Done (a : A)            (* it returns [a] *)
| Fatal (msg : string)    (* [log.Fatalf] *)
| Panic (msg : string)    (* a run-time panic *)
| OutOfFuel.              (* the bound on loop iterations was reached *)
Arguments Done {A} a.
Arguments Fatal {A} msg.
Arguments Panic {A} msg.
Arguments OutOfFuel {A}.

(** The answer of a remote call: a value or the error. *)
Inductive result (A : Type) : Type :=
| Ok (a : A)
| Err (e : string).
Arguments Ok {A} a.
Arguments Err {A} e.

(** The remote calls, in the order the process makes them.  The field
    [held] of [EvListCommits] is the disposition accumulated when the
    page is requested; it is not sent, it is recorded for the proofs. *)
Inductive event : Type :=
| EvListCommits (number : Z) (page : nat) (held : pullRequestStatus)
| EvGetCommit (sha : string)
| EvListByRepo (assignee : string) (labels : list string) (state : string)
| EvListComments (number : Z)
| EvCreateIssue (req : IssueRequest)
| EvCreateComment (number : Z) (body : string)
| EvCreateStatus (sha : string) (state : string) (description : option string).

(** The GitHub client: what each call answers.  [ListCommits] answers
    with the SHAs of the page and [resp.NextPage]. *)
Record Client : Type :=
  { ListCommits : string -> string -> Z -> nat -> result (list string * nat);
    GetCommit : string -> string -> string -> result RepositoryCommit;
    ListByRepo : string -> string -> string -> list string -> string ->
                 result (list Issue);
    ListComments : string -> string -> Z -> result (list string);
    CreateIssue : string -> string -> IssueRequest -> result Issue;
    CreateComment : string -> string -> Z -> string -> result unit;
    CreateStatus : string -> string -> string -> string -> option string ->
                   result unit }.

(** A computation that makes remote calls: the calls made and the outcome. *)
Definition M (A : Type) : Type := list event * outcome A.

Definition ret {A : Type} (a : A) : M A := ([], Done a).

Definition bind {A B : Type} (m : M A) (f : A -> M B) : M B :=
  match m with
  | (t1, Done a) => let (t2, o) := f a in ((t1 ++ t2)%list, o)
  | (t1, Fatal msg) => (t1, Fatal msg)
  | (t1, Panic msg) => (t1, Panic msg)
  | (t1, OutOfFuel) => (t1, OutOfFuel)
  end.

Notation "x <- c1 ;; c2" := (bind c1 (fun x => c2))
  (at level 100, c1 at next level, right associativity).

(** A remote call: one event, and the answer. *)
Definition remote {A : Type} (ev : event) (r : result A) : M (result A) :=
  ([ev], Done r).

(** An outcome without remote calls, lifted. *)
Definition lift {A : Type} (o : outcome A) : M A := ([], o).

Definition fatalf {A : Type} (msg : string) : M A := ([], Fatal msg).

Definition trace {A : Type} (m : M A) : list event := fst m.
Definition returned {A : Type} (m : M A) : outcome A := snd m.

(** [m[1]] on a slice. *)
Definition index1 (m : list string) : outcome string :=
  match nth_error m 1 with
  | Some t => Done t
  | None => Panic "index out of range"
  end.

(* ===================================================================== *)
(** ** The bot-author classifier *)
(* ===================================================================== *)

(** [isAutomationBotAuthor] reports whether [u] denotes an automation bot. *)
Definition isAutomationBotAuthor (cfg : Config) (u : option CommitAuthor)
    : outcome bool :=
  match botAuthorRE cfg with
  | None => Done false (* no bot author match is defined *)
  | Some re =>
      match u with
      | Some {| Name := Some uName; Email := Some uEmail |} =>
          match regexp.FindStringSubmatch re uEmail with
          | None => Done false
          | Some m =>
              if (0 <? List.length m)%nat then
                let name := strings.Join (strings.Fields uName) "-" in
                match index1 m with
                | Done m1 => Done (strings.EqualFold name m1)
                | Fatal msg => Fatal msg
                | Panic msg => Panic msg
                | OutOfFuel => OutOfFuel
                end
              else Done true
          end
      | _ => Done false (* no name or e-mail to compare *)
      end
  end.

(** [GetName]: the empty string for a nil pointer. *)
Definition GetName (u : CommitAuthor) : string :=
  match Name u with
  | Some n => n
  | None => EmptyString
  end.

Definition checkCommitMetadata (cfg : Config) (repoCommit : RepositoryCommit)
    : outcome pullRequestStatus :=
  match Author repoCommit with
  | Some author =>
      let name := GetName author in
      if strings.Contains name "[bot]" then Done prBot
      else
        match isAutomationBotAuthor cfg (Some author) with
        | Done true => Done prBot
        | Done false => Done prFailed
        | Fatal msg => Fatal msg
        | Panic msg => Panic msg
        | OutOfFuel => OutOfFuel
        end
  | None => Done prFailed
  end.

(* ===================================================================== *)
(** ** The debounce cache *)
(* ===================================================================== *)

Module time.

Definition Second : Z := 1000000000.
Definition maxDuration : Z := 2 ^ 63 - 1.
Definition minDuration : Z := - 2 ^ 63.

(** [t.Sub(u)] for instants in nanoseconds: the duration [t - u], or
    the largest or smallest duration when it is out of range. *)
Definition Sub (t u : Z) : Z :=
  if maxDuration <? t - u then maxDuration
  else if t - u <? minDuration then minDuration
  else t - u.

End time.

(** [debounceInterval] is how long after we've checked a PR that we are
    willing to check it again, to avoid duplicate stubbing. *)
Definition debounceInterval : Z := 5 * time.Second.

(** [fmt.Sprintf("%s#%d", repo.GetFullName(), pr.GetNumber())] *)
Definition debounceKey (p : PullRequest) (r : Repository) : string :=
  FullName r ++ "#" ++ strconv.Itoa (Number p).

(** Clean out stale cache entries. *)
Definition purge (now : Z) (m : gmap string Z) : gmap string Z :=
  filter (fun kv => ~ (debounceInterval < time.Sub now (snd kv))) m.

(** [debounce] reports whether checking the given pull request on repo
    should be skipped because we just checked it recently.  It runs with
    the lock of the cache held, at the instant [now]; it returns the
    cache it leaves. *)
Definition debounce (p : PullRequest) (r : Repository) (now : Z)
    (m : gmap string Z) : bool * gmap string Z :=
  let m1 := purge now m in
  let key := debounceKey p r in
  match m1 !! key with
  | None => (false, <[key := now]> m1)
  | Some when => (time.Sub now when <=? debounceInterval, m1)
  end.

(* ===================================================================== *)
(** ** The stub-issue manager *)
(* ===================================================================== *)

(** [issuebotStubLabel] is a label attached to issues created by the bot. *)
Definition issuebotStubLabel : string := "issuebot-stub".

(** [fmt.Sprintf(issueTitleTemplate, prNumber)] *)
Definition issueTitle (prNumber : Z) : string :=
  "Placeholder issue for PR #" ++ strconv.Itoa prNumber.

(** [fmt.Sprintf(issueCommentTemplate, issueNumber)] *)
Definition issueComment (issueNumber : Z) : string :=
  ":robot: IssueBot here. I noticed none of the commits on this PR has an issue attached. I have filed issue #"
  ++ strconv.Itoa issueNumber ++ " for you. Please update it at your convenience.".

(** [issueCommentRE] is used to recognize issuebot PR comments:
    [(?i)IssueBot here\..*I have filed issue #(\d+) for you]. *)
Definition issueCommentRE : regexp.Regexp :=
  {| regexp.expr :=
       regexp.Concat (regexp.Literal "IssueBot here.")
         (regexp.Concat (regexp.Star regexp.AnyCharNotNL)
            (regexp.Concat (regexp.Literal "I have filed issue #")
               (regexp.Concat (regexp.Capture 1 (regexp.Plus regexp.digit))
                  (regexp.Literal " for you"))));
     regexp.foldCase := true |}.

(** The loop of [checkStubIssue] over the issues listed. *)
Fixpoint findTitle (wantTitle : string) (issues : list Issue) : option Z :=
  match issues with
  | [] => None
  | issue :: rest =>
      if String.eqb (IssueTitle issue) wantTitle then Some (IssueNumber issue)
      else findTitle wantTitle rest
  end.

(** The loop of [checkStubIssue] over the comments of the PR. *)
Fixpoint findComment (comments : list string) : outcome (option Z) :=
  match comments with
  | [] => Done None
  | body :: rest =>
      match regexp.FindStringSubmatch issueCommentRE body with
      | Some m =>
          match index1 m with
          | Done m1 => Done (Some (fst (strconv.Atoi m1)))
          | Fatal msg => Fatal msg
          | Panic msg => Panic msg
          | OutOfFuel => OutOfFuel
          end
      | None => findComment rest
      end
  end.

(** [checkStubIssue] checks whether the specified pull request already
    has a stub issue created by the bot.  If so, it returns the issue
    number > 0; otherwise it returns 0. *)
Definition checkStubIssue (cli : Client) (p : pullRequest) : M (Z * option string) :=
  let owner := OwnerLogin (repo p) in
  let repoName := RepoName (repo p) in
  let prNumber := Number (pr p) in
  issues <- remote (EvListByRepo (UserLogin (pr p)) [issuebotStubLabel] "open")
              (ListByRepo cli owner repoName (UserLogin (pr p))
                 [issuebotStubLabel] "open") ;;
  match issues with
  | Err e => ret (0, Some ("list issues: " ++ e))
  | Ok issues =>
      let wantTitle := issueTitle prNumber in
      match findTitle wantTitle issues with
      | Some number => ret (number, None)
      | None =>
          comments <- remote (EvListComments prNumber)
                        (ListComments cli owner repoName prNumber) ;;
          match comments with
          | Err e => ret (0, Some ("list comments: " ++ e))
          | Ok comments =>
              found <- lift (findComment comments) ;;
              match found with
              | Some num => ret (num, None)
              | None => ret (0, None)
              end
          end
      end
  end.

(** [createStubIssue] creates a new placeholder issue for the specified
    PR in repo, and assigns that issue to the author.  It then adds a
    comment to the PR mentioning that issue.  If an issue is created, its
    number is returned whether or not there is a subsequent error in
    commenting on the PR. *)
Definition createStubIssue (cli : Client) (p : pullRequest) : M (Z * option string) :=
  let owner := OwnerLogin (repo p) in
  let repoName := RepoName (repo p) in
  let prNumber := Number (pr p) in
  let prAuthor := UserLogin (pr p) in
  let req := {| ReqTitle := issueTitle prNumber;
                ReqAssignee := prAuthor;
                ReqBody := "TODO(@" ++ prAuthor ++ "): Add details about PR #"
                           ++ strconv.Itoa prNumber;
                ReqLabels := [issuebotStubLabel] |} in
  issue <- remote (EvCreateIssue req) (CreateIssue cli owner repoName req) ;;
  match issue with
  | Err e => ret (0, Some ("creating issue: " ++ e))
  | Ok issue =>
      let issueNumber := IssueNumber issue in
      let body := issueComment issueNumber in
      _ <- remote (EvCreateComment prNumber body)
             (CreateComment cli owner repoName prNumber body) ;;
      ret (issueNumber, None)
  end.

(** The find-or-create sequence of [checkPullRequest]: the values of
    [issue] and [err] when it is over. *)
Definition stubIssueStep (cli : Client) (p : pullRequest) : M (Z * option string) :=
  found <- checkStubIssue cli p ;;
  if 0 <? fst found then ret found
  else createStubIssue cli p.

(* ===================================================================== *)
(** ** The disposition engine *)
(* ===================================================================== *)

(** Go's [int]: the sum wraps around at 64 bits. *)
Definition wrapInt (z : Z) : Z := (z + 2 ^ 63) mod 2 ^ 64 - 2 ^ 63.

(** The variables of the scan. *)
Record scanState : Type := { status : pullRequestStatus; totalDiff : Z }.

(** The body of the loop over the commits of a page, for one commit. *)
Definition examine (cfg : Config) (cli : Client) (p : pullRequest)
    (sha : string) (st : scanState) : M scanState :=
  commit <- remote (EvGetCommit sha)
              (GetCommit cli (OwnerLogin (repo p)) (RepoName (repo p)) sha) ;;
  match commit with
  | Err e => fatalf ("GetCommit: sha=" ++ sha ++ " err=" ++ e)
  | Ok commit =>
      let totalDiff := wrapInt (totalDiff st + StatsTotal commit) in
      (* Check the commit message for tags. *)
      let status := adopt (status st) (checkCommitMessage (Message commit)) in
      (* Check commit metadata for well-known bots. *)
      disp <- lift (checkCommitMetadata cfg commit) ;;
      let status := adopt status disp in
      ret {| status := status; totalDiff := totalDiff |}
  end.

(** The loop over the commits of a page; it breaks once the status is
    better than [prSkipped]. *)
Fixpoint scanCommits (cfg : Config) (cli : Client) (p : pullRequest)
    (shas : list string) (st : scanState) : M scanState :=
  match shas with
  | [] => ret st
  | sha :: rest =>
      st' <- examine cfg cli p sha st ;;
      if status_ltb prSkipped (status st') then ret st'
      else scanCommits cfg cli p rest st'
  end.

(** The loop over the pages, [for status <= prSkipped]; [fuel] bounds
    the number of pages requested. *)
Fixpoint scanPages (fuel : nat) (cfg : Config) (cli : Client) (p : pullRequest)
    (page : nat) (st : scanState) : M scanState :=
  if status_leb (status st) prSkipped then
    match fuel with
    | O => lift OutOfFuel
    | S fuel' =>
        listed <- remote (EvListCommits (Number (pr p)) page (status st))
                    (ListCommits cli (OwnerLogin (repo p)) (RepoName (repo p))
                       (Number (pr p)) page) ;;
        match listed with
        | Err e => fatalf ("checkPullRequest: err=" ++ e)
        | Ok (repoCommits, nextPage) =>
            st' <- scanCommits cfg cli p repoCommits st ;;
            if Nat.eqb nextPage 0 then ret st'
            else scanPages fuel' cfg cli p nextPage st'
        end
    end
  else ret st.

(** Very small diffs need not be subjected to strict scrutiny (assuming
    we didn't find a better reason). *)
Definition smallDiff (st : scanState) : pullRequestStatus :=
  if status_leb (status st) prSkipped && (totalDiff st <? 5) then prSmall
  else status st.

Definition dquote : string := String (ascii_of_nat 34) EmptyString.

(** The description is limited to 140 characters, so be brief. *)
Definition missingCommitExplanation : string :=
  "Any non-trivial git commit must link to a GitHub issue tracking the work. Edit each commit with a tag like "
  ++ dquote ++ "Updates #nn" ++ dquote ++ ", and update the PR.".

Definition annotateCommitStatus (cli : Client) (p : pullRequest)
    (headSHA : string) (failed : bool) : M unit :=
  let state := if failed then "failure" else "success" in
  let description := if failed then Some missingCommitExplanation else None in
  r <- remote (EvCreateStatus headSHA state description)
         (CreateStatus cli (OwnerLogin (repo p)) (RepoName (repo p))
            headSHA state description) ;;
  match r with
  | Err e => fatalf ("annotateCommitStatus: err=" ++ e)
  | Ok _ => ret tt
  end.

(** [checkPullRequest] after the debounce check: the scan, the small-diff
    exemption, the stub issue and the status annotation.  It returns the
    final disposition. *)
Definition evaluate (fuel : nat) (cfg : Config) (cli : Client) (p : pullRequest)
    : M pullRequestStatus :=
  st <- scanPages fuel cfg cli p 0
          {| status := prFailed; totalDiff := 0 |} ;;
  let status := smallDiff st in
  _ <- (if status_eqb status prSkipped && enableStubIssues cfg
        then stubIssueStep cli p
        else ret (0, None)) ;;
  _ <- (if status_eqb status prFailed
        then annotateCommitStatus cli p (HeadSHA (pr p)) true
        else ret tt) ;;
  ret status.

(** [checkPullRequest] at the instant [now], with the debounce cache
    [cache]: the cache it leaves, the remote calls it makes and, unless
    the check is skipped, the final disposition. *)
Definition checkPullRequest (fuel : nat) (cfg : Config) (cli : Client)
    (p : PullRequest) (r : Repository) (now : Z) (cache : gmap string Z)
    : gmap string Z * M (option pullRequestStatus) :=
  let (skip, cache') := debounce p r now cache in
  if skip then (cache', ret None)
  else (cache',
        s <- evaluate fuel cfg cli {| repo := r; pr := p |} ;; ret (Some s)).

(* ===================================================================== *)
(** ** The webhook handler *)
(* ===================================================================== *)

(** An HTTP request: its method, and the rest of it (headers and body),
    which only the functions of the GitHub library read. *)
Record Request : Type := { Method : string; Delivery : string }.

(** A parsed webhook event: a [*github.PullRequestEvent], or another. *)
Inductive Event : Type :=
| PullRequestEvent (pullRequestOf : PullRequest) (repoOf : Repository)
| OtherEvent.

(** The functions of the GitHub library that the handler calls. *)
Record Library : Type :=
  { ValidatePayload : Request -> string -> result string;
    WebHookType : Request -> string;
    ParseWebHook : string -> string -> result Event }.

(** What the handler answers: [http.Error] with a message and a code, or
    nothing of its own. *)
Inductive response : Type :=
| HttpError (msg : string) (code : nat)
| NoError.

(** The state of the server: the two metrics and the debounce cache. *)
Record ServerState : Type :=
  { webhookWakeups : Z; pullsChecked : Z; debounceCache : gmap string Z }.

Definition handleWebhook (lib : Library) (secret : string) (fuel : nat)
    (cfg : Config) (cli : Client) (now : Z) (st : ServerState) (r : Request)
    : ServerState * response * M (option pullRequestStatus) :=
  let st := {| webhookWakeups := wrapInt (webhookWakeups st + 1);
               pullsChecked := pullsChecked st;
               debounceCache := debounceCache st |} in
  if negb (String.eqb (Method r) "POST") && negb (String.eqb (Method r) "PUT")
  then (st, HttpError "method not allowed" 405, ret None)
  else
    match ValidatePayload lib r secret with
    | Err _ => (st, HttpError "webhook signature bad" 401, ret None)
    | Ok payload =>
        match ParseWebHook lib (WebHookType lib r) payload with
        | Err _ => (st, HttpError "could not parse payload" 400, ret None)
        | Ok (PullRequestEvent p rp) =>
            let (cache, m) := checkPullRequest fuel cfg cli p rp now (debounceCache st) in
            ({| webhookWakeups := webhookWakeups st;
                pullsChecked := wrapInt (pullsChecked st + 1);
                debounceCache := cache |}, NoError, m)
        | Ok OtherEvent =>
            (* not something we need to respond to *)
            (st, NoError, ret None)
        end
    end.

(* ===================================================================== *)
(** ** A repository for the examples: commits listed page by page *)
(* ===================================================================== *)

(** The client of a repository whose pull request has the commits
    [pages], page by page ([commits] gives the full record of a SHA);
    page 0 is the first page, as page 1 is, and [NextPage] is 0 on the
    last page.  [issues] and [comments] are what the two lists of the
    stub-issue manager answer; a created issue gets the number
    [created]. *)
Definition pagedClient (pages : list (list string))
    (commits : string -> RepositoryCommit)
    (issues : result (list Issue)) (comments : result (list string))
    (created : result Z) : Client :=
  {| ListCommits := fun _ _ _ page =>
       let i := Nat.max page 1 in
       Ok (nth (i - 1) pages [], if (i <? List.length pages)%nat then S i else O);
     GetCommit := fun _ _ sha => Ok (commits sha);
     ListByRepo := fun _ _ _ _ _ => issues;
     ListComments := fun _ _ _ => comments;
     CreateIssue := fun _ _ req =>
       match created with
       | Ok n => Ok {| IssueNumber := n; IssueTitle := ReqTitle req |}
       | Err e => Err e
       end;
     CreateComment := fun _ _ _ _ => Ok tt;
     CreateStatus := fun _ _ _ _ _ => Ok tt |}.

Definition sampleRepo : Repository :=
  {| OwnerLogin := "tailscale"; RepoName := "tailscale";
     FullName := "tailscale/tailscale" |}.

Definition samplePR : pullRequest :=
  {| repo := sampleRepo;
     pr := {| Number := 7; UserLogin := "alice"; HeadSHA := "c0ffee" |} |}.

(** No bot-author pattern; stub issues enabled. *)
Definition plainConfig : Config :=
  {| enableStubIssues := true; botAuthorRE := None |}.

Definition commitBy (name message : string) (total : Z) : RepositoryCommit :=
  {| Message := message;
     Author := Some {| Name := Some name; Email := Some "dev@example.com" |};
     StatsTotal := total |}.

(** The commits of the examples, by SHA. *)
Definition sampleCommits (sha : string) : RepositoryCommit :=
  if String.eqb sha "a11" then commitBy "Alice" "parser: tidy up #cleanup" 40
  else if String.eqb sha "b22"
       then commitBy "Alice" ("parser: reject empty input" ++ newline ++ newline
                              ++ "Fixes #7") 60
  else if String.eqb sha "c33"
       then commitBy "Alice" "skip-issuebot: will file later" 30
  else if String.eqb sha "d44" then commitBy "Alice" "Fixed the typo" 2
  else if String.eqb sha "e55" then commitBy "dependabot[bot]" "Bump x from 1 to 2" 12
  else commitBy "Alice" "refactor the lexer" 100.

(** A repository with these commits and neither issues nor comments. *)
Definition sampleClient (pages : list (list string)) : Client :=
  pagedClient pages sampleCommits (Ok []) (Ok []) (Ok 101).

(** A delivery for a pull request with one page of commits, at the
    instant 0, with an empty debounce cache. *)
Definition runScenario (cfg : Config) (shas : list string)
    : list event * outcome (option pullRequestStatus) :=
  snd (checkPullRequest 10 cfg (sampleClient [shas]) (pr samplePR) sampleRepo 0 ∅).

(** A client none of whose calls reaches the server. *)
Definition unreachableClient : Client :=
  {| ListCommits := fun _ _ _ _ => Err "connection refused";
     GetCommit := fun _ _ _ => Err "connection refused";
     ListByRepo := fun _ _ _ _ _ => Err "connection refused";
     ListComments := fun _ _ _ => Err "connection refused";
     CreateIssue := fun _ _ _ => Err "connection refused";
     CreateComment := fun _ _ _ _ => Err "connection refused";
     CreateStatus := fun _ _ _ _ _ => Err "connection refused" |}.

(** A library that takes a delivery for valid when it starts with the
    secret, and for a pull-request event of the example pull request when
    its type is [pull_request]. *)
Definition sampleLibrary : Library :=
  {| ValidatePayload := fun r secret =>
       if strings.HasPrefix (Delivery r) secret then Ok (Delivery r)
       else Err "payload signature check failed";
     WebHookType := fun r => "pull_request";
     ParseWebHook := fun type payload =>
       if String.eqb type "pull_request"
       then Ok (PullRequestEvent (pr samplePR) sampleRepo)
       else Ok OtherEvent |}.

(** The stems of the linking verbs. *)
Definition verbStems : list string := ["close"; "fix"; "resolve"; "updates"; "for"].

(** The pattern of the tests: [^noreply\+([-\w]+)@example.com$]. *)
Definition noreplyRE : regexp.Regexp :=
  {| regexp.expr :=
       regexp.Concat regexp.BeginText
         (regexp.Concat (regexp.Literal "noreply+")
            (regexp.Concat (regexp.Capture 1 (regexp.Plus regexp.word_or_hyphen))
               (regexp.Concat (regexp.Literal "@example")
                  (regexp.Concat regexp.AnyCharNotNL
                     (regexp.Concat (regexp.Literal "com") regexp.EndText)))));
     regexp.foldCase := false |}.

(** A pattern without a parenthesized subexpression: [@example\.com$]. *)
Definition exampleDomainRE : regexp.Regexp :=
  {| regexp.expr := regexp.Concat (regexp.Literal "@example.com") regexp.EndText;
     regexp.foldCase := false |}.

(* ===================================================================== *)
(** ** The commit-message classifier as the design document words it *)
(* ===================================================================== *)

(** The first line of a message. *)
Definition firstLine (message : string) : string :=
  hd EmptyString (strings.Split message newline).

(** The line begins, case-insensitively, with a linking verb. *)
Definition beginsWithVerb (line : string) : bool :=
  existsb (fun verb => strings.HasPrefix (strings.ToLower line) verb) verbs.

(** The line contains, case-insensitively, [#] or [github.com]. *)
Definition hasMarker (line : string) : bool :=
  strings.Contains (strings.ToLower line) "#" ||
  strings.Contains (strings.ToLower line) "github.com".

Definition qualifies (line : string) : bool := beginsWithVerb line && hasMarker line.

(** The rules of the classifier, in their order of priority. *)
Definition classifyMessage (message : string) : pullRequestStatus :=
  if strings.HasPrefix (firstLine message) "Revert" then prRevert
  else if existsb qualifies (strings.Split message newline) then prLinked
  else if strings.Contains message "skip-issuebot" then prSkipped
  else if strings.Contains message "#cleanup" then prCleanup
  else prFailed.

(* ===================================================================== *)
(** ** The comparison of names as the design document words it *)
(* ===================================================================== *)

(** Every run of white space replaced by one hyphen; [inRun] tells that
    the byte before was white space. *)
Fixpoint collapseFrom (inRun : bool) (s : string) : string :=
  match s with
  | EmptyString => EmptyString
  | String c s' =>
      if strings.isSpace c then
        if inRun then collapseFrom true s'
        else String "-"%char (collapseFrom true s')
      else String c (collapseFrom false s')
  end.

Definition collapseWhitespace (s : string) : string := collapseFrom false s.

Fixpoint trimLeft (s : string) : string :=
  match s with
  | EmptyString => EmptyString
  | String c s' => if strings.isSpace c then trimLeft s' else s
  end.

Fixpoint trimRight (s : string) : string :=
  match s with
  | EmptyString => EmptyString
  | String c s' =>
      match trimRight s' with
      | EmptyString => if strings.isSpace c then EmptyString else String c EmptyString
      | t => String c t
      end
  end.

(** The string without its leading and trailing white space. *)
Definition TrimSpace (s : string) : string := trimLeft (trimRight s).

(** The last byte of [s], if any, is not white space. *)
Fixpoint noTrailingSpace (s : string) : bool :=
  match s with
  | EmptyString => true
  | String c EmptyString => negb (strings.isSpace c)
  | String _ s' => noTrailingSpace s'
  end.

(** The hyphen and the fields that follow a first field. *)
Definition tailJoin (ws : list string) : string :=
  match ws with
  | [] => EmptyString
  | _ => "-" ++ strings.Join ws "-"
  end.

(* ===================================================================== *)
(** ** Notions for the properties of the scan *)
(* ===================================================================== *)

(** A configuration whose pattern, if any, has a parenthesized
    subexpression. *)
Definition safeConfig (cfg : Config) : Prop :=
  match botAuthorRE cfg with
  | None => True
  | Some re => (1 <= regexp.NumSubexp re)%nat
  end.

(** The disposition of one commit: the better of what its message and
    its metadata give. *)
Definition metadataDisposition (cfg : Config) (c : RepositoryCommit)
    : pullRequestStatus :=
  match checkCommitMetadata cfg c with
  | Done d => d
  | _ => prFailed
  end.

Definition dispositionOf (cfg : Config) (c : RepositoryCommit) : pullRequestStatus :=
  adopt (checkCommitMessage (Message c)) (metadataDisposition cfg c).

(** The maximum of a sequence of dispositions; [prFailed] is the least. *)
Fixpoint maxStatus (ds : list pullRequestStatus) : pullRequestStatus :=
  match ds with
  | [] => prFailed
  | d :: ds' => adopt (maxStatus ds') d
  end.

(** The elements of [xs] up to and including the first whose
    disposition is better than [prSkipped]. *)
Fixpoint examined {A : Type} (d : A -> pullRequestStatus) (xs : list A) : list A :=
  match xs with
  | [] => []
  | x :: xs' => x :: (if status_ltb prSkipped (d x) then [] else examined d xs')
  end.

(** The variables of the scan after one more commit. *)
Definition step (cfg : Config) (st : scanState) (c : RepositoryCommit) : scanState :=
  {| status := adopt (status st) (dispositionOf cfg c);
     totalDiff := wrapInt (totalDiff st + StatsTotal c) |}.

(** The SHAs of the commits fetched, and the pages requested, in a trace. *)
Definition commitsFetched (tr : list event) : list string :=
  flat_map (fun e => match e with EvGetCommit sha => [sha] | _ => [] end) tr.

Definition pagesRequested (tr : list event) : list nat :=
  flat_map (fun e => match e with EvListCommits _ page _ => [page] | _ => [] end) tr.

(** The page numbers a complete scan of [n] pages requests. *)
Definition allPages (n : nat) : list nat := O :: seq 2 (n - 1).

(** A request of a page made while the disposition held was no better
    than [prSkipped]; any other event. *)
Definition requestedWhileWeak (e : event) : Prop :=
  match e with
  | EvListCommits _ _ held => status_leb held prSkipped = true
  | _ => True
  end.

Definition isScanEvent (e : event) : bool :=
  match e with
  | EvListCommits _ _ _ | EvGetCommit _ => true
  | _ => false
  end.

Definition isCreateIssue (e : event) : bool :=
  match e with
  | EvCreateIssue _ => true
  | _ => false
  end.


Definition isCreateStatus (e : event) : bool :=
  match e with
  | EvCreateStatus _ _ _ => true
  | _ => false
  end.

Definition initialState : scanState := {| status := prFailed; totalDiff := 0 |}.


(** Some element of [xs] has a disposition better than [prSkipped]. *)
Definition strongIn {A : Type} (d : A -> pullRequestStatus) (xs : list A) : bool :=
  existsb (fun x => status_ltb prSkipped (d x)) xs.

(* ===================================================================== *)
(** ** Notions for the properties of a whole evaluation *)
(* ===================================================================== *)

Definition isCreateComment (e : event) : bool :=
  match e with
  | EvCreateComment _ _ => true
  | _ => false
  end.

(** A call of the issues API: one of the calls of the stub-issue manager. *)
Definition isIssueEvent (e : event) : bool :=
  match e with
  | EvListByRepo _ _ _ | EvListComments _ | EvCreateIssue _ | EvCreateComment _ _ => true
  | _ => false
  end.

(** A call that changes the repository. *)
Definition isWrite (e : event) : bool :=
  isCreateIssue e || isCreateComment e || isCreateStatus e.

(** How many events of a trace satisfy [f]. *)
Definition count (f : event -> bool) (tr : list event) : nat :=
  List.length (List.filter f tr).



(* ===================================================================== *)
(** ** Notions for the properties of the recognition pattern *)
(* ===================================================================== *)











(* ===================================================================== *)
(** * Properties *)
(* ===================================================================== *)

(** ** Strings *)




Lemma Split_not_nil s sep : strings.Split s sep <> [].
Proof. unfold strings.Split. destruct (strings.splitFrom sep s 0). discriminate. Qed.

(** ** The loops of [checkCommitMessage] *)

Lemma scanVerbs_spec lower vs :
  scanVerbs lower vs =
  existsb (fun verb => strings.HasPrefix lower verb) vs &&
  (strings.Contains lower "#" || strings.Contains lower "github.com").
Proof.
  induction vs as [|v vs IH]; simpl; [reflexivity|].
  destruct (strings.HasPrefix lower v); simpl.
  - destruct (strings.Contains lower "#" || strings.Contains lower "github.com");
      simpl; [reflexivity|].
    rewrite IH. apply andb_false_r.
  - exact IH.
Qed.

Lemma scanVerbs_qualifies line :
  scanVerbs (strings.ToLower line) verbs = qualifies line.
Proof. apply scanVerbs_spec. Qed.

Lemma scanLines_later idx lines :
  scanLines (S idx) lines =
  if existsb qualifies lines then Some prLinked else None.
Proof.
  revert idx. induction lines as [|l lines IH]; intros idx; [reflexivity|].
  cbn [scanLines existsb Nat.eqb andb].
  rewrite scanVerbs_qualifies.
  destruct (qualifies l); simpl; [reflexivity|]. apply IH.
Qed.

Lemma scanLines_first line rest :
  scanLines 0 (line :: rest) =
  if strings.HasPrefix line "Revert" then Some prRevert
  else if existsb qualifies (line :: rest) then Some prLinked
  else None.
Proof.
  cbn [scanLines Nat.eqb andb].
  destruct (strings.HasPrefix line "Revert"); [reflexivity|].
  rewrite scanVerbs_qualifies. cbn [existsb].
  destruct (qualifies line); simpl; [reflexivity|].
  apply scanLines_later.
Qed.

(** The loops of [checkCommitMessage] compute the rules in their order. *)
Lemma checkCommitMessage_classify (message : string) :
  checkCommitMessage message = classifyMessage message.
Proof.
  unfold checkCommitMessage, classifyMessage, firstLine.
  destruct (strings.Split message newline) as [|line rest] eqn:E.
  - exfalso. exact (Split_not_nil _ _ E).
  - rewrite scanLines_first. cbn [hd].
    destruct (strings.HasPrefix line "Revert"); [reflexivity|].
    destruct (existsb qualifies (line :: rest)); reflexivity.
Qed.







(** The cases of [TestCheckCommitMessage]. *)
Example test_checkCommitMessage :
  List.map (fun body => checkCommitMessage ("subject" ++ newline ++ body))
    ["Updates #1"; "Updates https://github.com/tailscale/example/issues/1";
     "Close #1"; "Closes #1"; "Closed #1"; "Fix #1"; "Fixes #1"; "Fixed #1";
     "Resolve #1"; "Resolves #1"; "Resolved #1"; "For #1"]
    = repeat prLinked 12 /\
  checkCommitMessage "Revert 0123456789abcdef" = prRevert /\
  checkCommitMessage ("prCleanup" ++ newline ++ "Just a #cleanup") = prCleanup /\
  checkCommitMessage ("prSkipped" ++ newline ++ "skip-issuebot") = prSkipped /\
  checkCommitMessage EmptyString = prFailed.
Proof. vm_compute. repeat split. Qed.

(** ** The bot-author classifier *)

Lemma findFrom_length re s pos m :
  regexp.findFrom re s pos = Some m ->
  List.length m = S (regexp.NumSubexp re).
Proof.
  revert pos. induction s as [|c s IH]; intros pos; cbn [regexp.findFrom].
  - destruct (regexp.run _ _ _ _ _ _) as [[e cs]|]; [|discriminate].
    intros [= <-]. unfold regexp.submatches. cbn [List.length].
    rewrite length_map, length_seq. reflexivity.
  - destruct (regexp.run _ _ _ _ _ _) as [[e cs]|].
    + intros [= <-]. unfold regexp.submatches. cbn [List.length].
      rewrite length_map, length_seq. reflexivity.
    + apply IH.
Qed.

(** The slice [FindStringSubmatch] returns has one element for the whole
    match and one for each parenthesized subexpression. *)
Lemma FindStringSubmatch_length re s m :
  regexp.FindStringSubmatch re s = Some m ->
  List.length m = S (regexp.NumSubexp re).
Proof. apply findFrom_length. Qed.

(** C1.  When the pattern has no parenthesized subexpression and matches
    the e-mail address of an author with a name, the classifier does not
    return true: the slice of submatches has the whole match only, the
    test [len(m) > 0] holds, and [m[1]] is out of range. *)
Theorem isAutomationBotAuthor_bare_match_panics cfg re uName uEmail m :
  botAuthorRE cfg = Some re ->
  regexp.NumSubexp re = O ->
  regexp.FindStringSubmatch re uEmail = Some m ->
  List.length m = 1%nat /\
  isAutomationBotAuthor cfg (Some {| Name := Some uName; Email := Some uEmail |})
    = Panic "index out of range".
Proof.
  intros Hre Hn Hm. unfold isAutomationBotAuthor. rewrite Hre, Hm.
  pose proof (FindStringSubmatch_length _ _ _ Hm) as Hlen. rewrite Hn in Hlen.
  destruct m as [|whole [|x m]]; [discriminate| |discriminate].
  split; reflexivity.
Qed.

(** The pattern [@example\.com$] and the author
    [Foo <noreply@example.com>]. *)
Lemma isAutomationBotAuthor_bare_match_panics_witness :
  List.length ["@example.com"] = 1%nat /\
  isAutomationBotAuthor
    {| enableStubIssues := true; botAuthorRE := Some exampleDomainRE |}
    (Some {| Name := Some "Foo"; Email := Some "noreply@example.com" |})
  = Panic "index out of range".
Proof.
  apply (isAutomationBotAuthor_bare_match_panics
           {| enableStubIssues := true; botAuthorRE := Some exampleDomainRE |}
           exampleDomainRE "Foo" "noreply@example.com" ["@example.com"]).
  - reflexivity.
  - reflexivity.
  - vm_compute. reflexivity.
Defined.

(** *** [strings.Fields] followed by [strings.Join], and the wording
    "white-space runs collapsed to single hyphens" *)

Lemma Join_cons w ws :
  strings.Join (w :: ws) "-" = w ++ tailJoin ws.
Proof.
  destruct ws as [|x ws]; cbn [strings.Join tailJoin].
  - induction w as [|c w IH]; [reflexivity|].
    change (String c w = String c (w ++ EmptyString)). f_equal. exact IH.
  - reflexivity.
Qed.

Lemma Fields_space c s :
  strings.isSpace c = true -> strings.Fields (String c s) = strings.Fields s.
Proof.
  intros Hc. unfold strings.Fields. cbn [strings.fieldsFrom].
  destruct (strings.fieldsFrom s) as [w ws]. rewrite Hc. reflexivity.
Qed.

Lemma Fields_not_nil s :
  noTrailingSpace s = true -> s <> EmptyString -> strings.Fields s <> [].
Proof.
  induction s as [|c s IH]; intros Hn Hne; [congruence|].
  destruct (strings.isSpace c) eqn:Hc.
  - rewrite (Fields_space _ _ Hc). destruct s as [|d s].
    + cbn in Hn. rewrite Hc in Hn. discriminate.
    + apply IH; [exact Hn|discriminate].
  - unfold strings.Fields. cbn [strings.fieldsFrom].
    destruct (strings.fieldsFrom s) as [w ws]. rewrite Hc. discriminate.
Qed.

Lemma collapseFrom_fields s :
  noTrailingSpace s = true ->
  collapseFrom true s = strings.Join (strings.Fields s) "-" /\
  collapseFrom false s =
    fst (strings.fieldsFrom s) ++ tailJoin (snd (strings.fieldsFrom s)).
Proof.
  induction s as [|c s IH]; intros Hn; [split; reflexivity|].
  assert (Hs : s = EmptyString \/ s <> EmptyString)
    by (destruct s; [left|right]; congruence).
  assert (Hn' : s <> EmptyString -> noTrailingSpace s = true)
    by (destruct s; [congruence|intros _; exact Hn]).
  destruct (strings.isSpace c) eqn:Hc.
  - (* a white-space byte: it cannot be the last one *)
    destruct Hs as [->|Hne]; [cbn in Hn; rewrite Hc in Hn; discriminate|].
    destruct (IH (Hn' Hne)) as [IHt IHf].
    pose proof (Fields_not_nil s (Hn' Hne) Hne) as Hnil.
    rewrite (Fields_space _ _ Hc). cbn [collapseFrom strings.fieldsFrom].
    rewrite Hc. split; [exact IHt|].
    unfold strings.Fields in *. destruct (strings.fieldsFrom s) as [w ws].
    cbn [fst snd]. rewrite IHt.
    destruct (strings.consField w ws); [congruence|reflexivity].
  - assert (Hstep : collapseFrom false s =
                    fst (strings.fieldsFrom s) ++ tailJoin (snd (strings.fieldsFrom s))).
    { destruct Hs as [->|Hne]; [reflexivity|]. apply (IH (Hn' Hne)). }
    unfold strings.Fields. cbn [collapseFrom strings.fieldsFrom]. rewrite Hc.
    destruct (strings.fieldsFrom s) as [w ws]. cbn [fst snd] in *.
    cbn [strings.consField]. rewrite Join_cons, Hstep. split; reflexivity.
Qed.

Lemma fieldsFrom_trimRight s :
  strings.fieldsFrom (trimRight s) = strings.fieldsFrom s.
Proof.
  induction s as [|c s IH]; [reflexivity|].
  cbn [trimRight]. destruct (trimRight s) as [|d t] eqn:Et.
  - destruct (strings.isSpace c) eqn:Hc; cbn [strings.fieldsFrom] in *;
      rewrite <- IH, Hc; reflexivity.
  - cbn [strings.fieldsFrom] in *. rewrite <- IH. reflexivity.
Qed.

Lemma noTrailingSpace_trimRight s : noTrailingSpace (trimRight s) = true.
Proof.
  induction s as [|c s IH]; [reflexivity|].
  cbn [trimRight]. destruct (trimRight s) as [|d t] eqn:Et.
  - destruct (strings.isSpace c) eqn:Hc; cbn; [reflexivity|]. now rewrite Hc.
  - exact IH.
Qed.

Lemma noTrailingSpace_trimLeft s :
  noTrailingSpace s = true -> noTrailingSpace (trimLeft s) = true.
Proof.
  induction s as [|c s IH]; intros Hn; [reflexivity|].
  cbn [trimLeft]. destruct (strings.isSpace c) eqn:Hc; [|exact Hn].
  apply IH. destruct s; [reflexivity|exact Hn].
Qed.

Lemma Fields_trimLeft s : strings.Fields (trimLeft s) = strings.Fields s.
Proof.
  induction s as [|c s IH]; [reflexivity|].
  cbn [trimLeft]. destruct (strings.isSpace c) eqn:Hc; [|reflexivity].
  rewrite (Fields_space _ _ Hc). exact IH.
Qed.

Lemma trimLeft_head s :
  match trimLeft s with
  | EmptyString => True
  | String c _ => strings.isSpace c = false
  end.
Proof.
  induction s as [|c s IH]; [exact I|].
  cbn [trimLeft]. destruct (strings.isSpace c) eqn:Hc; [exact IH|exact Hc].
Qed.

(** What the code compares with the captured text: the name without its
    leading and trailing white space, each white-space run left in it
    replaced by one hyphen. *)
Lemma Join_Fields_collapse name :
  strings.Join (strings.Fields name) "-" = collapseWhitespace (TrimSpace name).
Proof.
  unfold collapseWhitespace, TrimSpace.
  pose proof (noTrailingSpace_trimLeft _ (noTrailingSpace_trimRight name)) as Hn.
  pose proof (trimLeft_head (trimRight name)) as Hh.
  rewrite <- (Fields_trimLeft name) at 1.
  assert (strings.Fields (trimLeft name) = strings.Fields (trimLeft (trimRight name))) as ->.
  { rewrite !Fields_trimLeft. unfold strings.Fields.
    now rewrite fieldsFrom_trimRight. }
  destruct (collapseFrom_fields _ Hn) as [_ Hf]. rewrite Hf.
  destruct (trimLeft (trimRight name)) as [|c t]; [reflexivity|].
  unfold strings.Fields. cbn [strings.fieldsFrom].
  destruct (strings.fieldsFrom t) as [w ws]. rewrite Hh.
  cbn [fst snd strings.consField]. apply Join_cons.
Qed.

(** A name without leading or trailing white space is compared as the
    wording says. *)
Lemma Join_Fields_collapse_trimmed name :
  TrimSpace name = name ->
  strings.Join (strings.Fields name) "-" = collapseWhitespace name.
Proof. intros H. rewrite Join_Fields_collapse, H. reflexivity. Qed.

Lemma index1_of_length (m : list string) :
  (2 <= List.length m)%nat -> exists m1, nth_error m 1 = Some m1 /\ index1 m = Done m1.
Proof.
  destruct m as [|whole [|m1 m]]; cbn [List.length]; try lia.
  intros _. exists m1. split; reflexivity.
Qed.




(** The cases of [TestIsAutmationBotAuthor]. *)
Example test_isAutomationBotAuthor :
  let cfg := {| enableStubIssues := true; botAuthorRE := Some noreplyRE |} in
  let author n e := Some {| Name := Some n; Email := Some e |} in
  List.map (isAutomationBotAuthor cfg)
    [None; Some {| Name := None; Email := None |};
     Some {| Name := Some EmptyString; Email := None |};
     Some {| Name := None; Email := Some EmptyString |};
     author EmptyString EmptyString;
     author "Foo" "foo@bar.com"; author "Foo" "foo@example.com";
     author "Foo" "noreply@example"; author "Foo" "noreply@example.com";
     author "Foo" "noreply+bar@example.com";
     author "Foo Bar" "noreply+baz-quux@example.com";
     author "Foo Bar" "noreply+foo_bar@example.com"]
    = repeat (Done false) 12 /\
  List.map (isAutomationBotAuthor cfg)
    [author "Apple" "noreply+apple@example.com";
     author "Pear Plum" "noreply+pear-plum@example.com";
     author "cherry" "noreply+CHERRY@example.com";
     author "OSS Updater" "noreply+oss-updater@example.com"]
    = repeat (Done true) 4.
Proof. vm_compute. split; reflexivity. Qed.

(** ** The debounce cache *)

(** Saturation does not matter to the comparison with the interval. *)
Lemma Sub_stale now when :
  debounceInterval < time.Sub now when <-> debounceInterval < now - when.
Proof.
  unfold time.Sub, debounceInterval, time.Second, time.maxDuration, time.minDuration.
  destruct (Z.ltb_spec (2 ^ 63 - 1) (now - when));
    [|destruct (Z.ltb_spec (now - when) (- 2 ^ 63))]; lia.
Qed.

Lemma purge_lookup now (m : gmap string Z) (k : string) :
  purge now m !! k =
  match m !! k with
  | Some when => if decide (debounceInterval < now - when) then None else Some when
  | None => None
  end.
Proof.
  unfold purge. destruct (m !! k) as [when|] eqn:Hk.
  - destruct (decide (debounceInterval < now - when)) as [Hs|Hs].
    + apply map_lookup_filter_None. right. intros x Hx. cbn [snd].
      rewrite Hk in Hx. injection Hx as <-. rewrite Sub_stale. tauto.
    + apply map_lookup_filter_Some. split; [exact Hk|]. cbn [snd].
      rewrite Sub_stale. exact Hs.
  - apply map_lookup_filter_None. left. exact Hk.
Qed.

Lemma debounce_absent p r now (m : gmap string Z) :
  purge now m !! debounceKey p r = None ->
  debounce p r now m = (false, <[debounceKey p r := now]> (purge now m)).
Proof. intros H. unfold debounce. rewrite H. reflexivity. Qed.

Lemma debounce_present p r now (m : gmap string Z) when :
  m !! debounceKey p r = Some when ->
  now - when <= debounceInterval ->
  debounce p r now m = (true, purge now m).
Proof.
  intros Hk Hfresh. unfold debounce. rewrite purge_lookup, Hk.
  destruct (decide (debounceInterval < now - when)); [lia|].
  f_equal. apply Z.leb_le.
  destruct (Z.le_gt_cases (time.Sub now when) debounceInterval) as [H|H]; [exact H|].
  apply Sub_stale in H. lia.
Qed.



(** A call that returns true does not renew the entry: after a check at
    0 s and a skipped delivery at 4 s, a delivery at 6 s is checked. *)
Example debounce_skip_does_not_renew :
  let p := {| Number := 7; UserLogin := "alice"; HeadSHA := "c0ffee" |} in
  let r := {| OwnerLogin := "tailscale"; RepoName := "tailscale";
              FullName := "tailscale/tailscale" |} in
  let c1 := debounce p r 0 ∅ in
  let c2 := debounce p r (4 * time.Second) (snd c1) in
  let c3 := debounce p r (6 * time.Second) (snd c2) in
  (fst c1, fst c2, fst c3) = (false, true, false) /\
  snd c3 !! debounceKey p r = Some (6 * time.Second).
Proof. vm_compute. split; reflexivity. Qed.

(** ** Dispositions: [adopt] is the maximum *)

Lemma rank_inj a b : rank a = rank b -> a = b.
Proof. destruct a, b; cbn; intros H; try reflexivity; discriminate H. Qed.

Lemma rank_adopt s d : rank (adopt s d) = Z.max (rank s) (rank d).
Proof.
  unfold adopt, status_ltb. destruct (Z.ltb_spec (rank s) (rank d)); lia.
Qed.

Lemma adopt_assoc s a b : adopt (adopt s a) b = adopt s (adopt a b).
Proof. apply rank_inj. rewrite !rank_adopt. lia. Qed.

Lemma adopt_comm a b : adopt a b = adopt b a.
Proof. apply rank_inj. rewrite !rank_adopt. lia. Qed.

Lemma adopt_failed_l d : adopt prFailed d = d.
Proof. destruct d; reflexivity. Qed.

Lemma status_leb_le a b : status_leb a b = true <-> rank a <= rank b.
Proof. unfold status_leb. apply Z.leb_le. Qed.

Lemma status_ltb_lt a b : status_ltb a b = true <-> rank a < rank b.
Proof. unfold status_ltb. apply Z.ltb_lt. Qed.

Lemma status_ltb_leb a b : status_ltb a b = negb (status_leb b a).
Proof. unfold status_ltb, status_leb. apply Z.ltb_antisym. Qed.

(** While the disposition held is no better than [prSkipped], the new
    one is better than [prSkipped] exactly when the commit's is. *)
Lemma adopt_strong s d :
  status_leb s prSkipped = true ->
  status_ltb prSkipped (adopt s d) = status_ltb prSkipped d.
Proof.
  intros Hs. apply status_leb_le in Hs. unfold status_ltb.
  rewrite rank_adopt.
  destruct (Z.ltb_spec (rank prSkipped) (rank d));
    destruct (Z.ltb_spec (rank prSkipped) (Z.max (rank s) (rank d))); lia.
Qed.



Lemma maxStatus_app xs ys :
  maxStatus (xs ++ ys) = adopt (maxStatus xs) (maxStatus ys).
Proof.
  apply rank_inj. induction xs as [|x xs IH]; cbn [maxStatus app].
  - rewrite adopt_failed_l. reflexivity.
  - rewrite !rank_adopt, IH, rank_adopt. lia.
Qed.

(** The maximum does not depend on the order. *)
Lemma maxStatus_Permutation ds ds' :
  Permutation ds ds' -> maxStatus ds = maxStatus ds'.
Proof.
  induction 1 as [|x l l' _ IH|x y l|l l' l'' _ IH1 _ IH2]; cbn [maxStatus].
  - reflexivity.
  - rewrite IH. reflexivity.
  - rewrite !adopt_assoc, (adopt_comm y x). reflexivity.
  - congruence.
Qed.

(** ** The monad of remote calls *)

Lemma trace_bind {A B} (m : M A) (f : A -> M B) :
  trace (bind m f) =
  (trace m ++ match returned m with
              | Done a => trace (f a)
              | _ => []
              end)%list.
Proof.
  destruct m as [t [a|msg|msg|]]; cbn [bind trace returned fst snd].
  - destruct (f a). reflexivity.
  - symmetry. apply app_nil_r.
  - symmetry. apply app_nil_r.
  - symmetry. apply app_nil_r.
Qed.

Lemma returned_bind {A B} (m : M A) (f : A -> M B) :
  returned (bind m f) =
  match returned m with
  | Done a => returned (f a)
  | Fatal msg => Fatal msg
  | Panic msg => Panic msg
  | OutOfFuel => OutOfFuel
  end.
Proof.
  destruct m as [t [a|msg|msg|]]; cbn [bind trace returned fst snd]; try reflexivity.
  destruct (f a). reflexivity.
Qed.

Lemma bind_Done {A B} (m : M A) (f : A -> M B) t a :
  m = (t, Done a) -> bind m f = ((t ++ trace (f a))%list, returned (f a)).
Proof. intros ->. cbn [bind]. destruct (f a). reflexivity. Qed.

Lemma M_eta {A} (m : M A) : m = (trace m, returned m).
Proof. destruct m. reflexivity. Qed.

Lemma Forall_trace_bind {A B} (P : event -> Prop) (m : M A) (f : A -> M B) :
  Forall P (trace m) -> (forall a, Forall P (trace (f a))) ->
  Forall P (trace (bind m f)).
Proof.
  intros Hm Hf. rewrite trace_bind. apply Forall_app. split; [exact Hm|].
  destruct (returned m); [apply Hf|constructor..].
Qed.

(** ** The classifiers never fail under a safe configuration *)

Lemma isAutomationBotAuthor_total cfg u :
  safeConfig cfg -> exists b, isAutomationBotAuthor cfg u = Done b.
Proof.
  unfold safeConfig, isAutomationBotAuthor. intros Hsafe.
  destruct (botAuthorRE cfg) as [re|]; [|eauto].
  destruct u as [[[uName|] [uEmail|]]|]; eauto.
  destruct (regexp.FindStringSubmatch re uEmail) as [m|] eqn:Hm; [|eauto].
  pose proof (FindStringSubmatch_length _ _ _ Hm) as Hlen.
  destruct (index1_of_length m ltac:(lia)) as (m1 & _ & ->).
  destruct (0 <? List.length m)%nat; eauto.
Qed.

Lemma checkCommitMetadata_total cfg c :
  safeConfig cfg -> checkCommitMetadata cfg c = Done (metadataDisposition cfg c).
Proof.
  intros Hsafe. unfold metadataDisposition, checkCommitMetadata.
  destruct (Author c) as [a|]; [|reflexivity].
  destruct (strings.Contains (GetName a) "[bot]"); [reflexivity|].
  destruct (isAutomationBotAuthor_total cfg (Some a) Hsafe) as [b ->].
  destruct b; reflexivity.
Qed.

Lemma examine_ok cfg cli p sha st c :
  safeConfig cfg ->
  GetCommit cli (OwnerLogin (repo p)) (RepoName (repo p)) sha = Ok c ->
  examine cfg cli p sha st = ([EvGetCommit sha], Done (step cfg st c)).
Proof.
  intros Hsafe Hget. unfold examine, remote. rewrite Hget.
  cbn [bind]. rewrite (checkCommitMetadata_total _ _ Hsafe).
  unfold lift, ret, step, dispositionOf. cbn [bind app].
  rewrite adopt_assoc. reflexivity.
Qed.

(** ** The prefix of the commits that a scan examines *)

Lemma examined_app_strong {A} (d : A -> pullRequestStatus) xs ys :
  strongIn d xs = true -> examined d (xs ++ ys) = examined d xs.
Proof.
  induction xs as [|x xs IH]; cbn [strongIn existsb examined app]; [discriminate|].
  destruct (status_ltb prSkipped (d x)); [reflexivity|].
  cbn [orb]. intros H. f_equal. apply IH. exact H.
Qed.

Lemma examined_app_weak {A} (d : A -> pullRequestStatus) xs ys :
  strongIn d xs = false -> examined d (xs ++ ys) = (xs ++ examined d ys)%list.
Proof.
  induction xs as [|x xs IH]; cbn [strongIn existsb examined app]; [reflexivity|].
  destruct (status_ltb prSkipped (d x)); [discriminate|].
  cbn [orb]. intros H. f_equal. apply IH. exact H.
Qed.

Lemma examined_weak {A} (d : A -> pullRequestStatus) xs :
  strongIn d xs = false -> examined d xs = xs.
Proof.
  intros H. rewrite <- (app_nil_r xs) at 1.
  rewrite (examined_app_weak d xs [] H). cbn [examined]. apply app_nil_r.
Qed.

Lemma strongIn_maxStatus {A} (d : A -> pullRequestStatus) xs :
  strongIn d xs = status_ltb prSkipped (maxStatus (List.map d xs)).
Proof.
  induction xs as [|x xs IH]; [reflexivity|].
  cbn [strongIn existsb List.map maxStatus]. fold (strongIn d xs). rewrite IH.
  unfold status_ltb. rewrite rank_adopt.
  destruct (Z.ltb_spec (rank prSkipped) (rank (d x)));
    destruct (Z.ltb_spec (rank prSkipped) (rank (maxStatus (List.map d xs))));
    destruct (Z.ltb_spec (rank prSkipped)
                (Z.max (rank (maxStatus (List.map d xs))) (rank (d x))));
    cbn [orb]; try reflexivity; lia.
Qed.

Lemma strongIn_examined {A} (d : A -> pullRequestStatus) xs :
  strongIn d (examined d xs) = strongIn d xs.
Proof.
  unfold strongIn. induction xs as [|x xs IH]; [reflexivity|].
  cbn [examined existsb].
  destruct (status_ltb prSkipped (d x)) eqn:Hx; cbn [existsb orb].
  - reflexivity.
  - exact IH.
Qed.

Lemma status_fold_step cfg cs st :
  status (fold_left (step cfg) cs st) =
  adopt (status st) (maxStatus (List.map (dispositionOf cfg) cs)).
Proof.
  revert st. induction cs as [|c cs IH]; intros st; cbn [fold_left List.map maxStatus].
  - apply rank_inj. rewrite rank_adopt. cbn. destruct (status st); reflexivity.
  - rewrite IH. cbn [step status]. apply rank_inj. rewrite !rank_adopt. lia.
Qed.

Lemma commitsFetched_app t1 t2 :
  commitsFetched (t1 ++ t2) = (commitsFetched t1 ++ commitsFetched t2)%list.
Proof. apply flat_map_app. Qed.

Lemma pagesRequested_app t1 t2 :
  pagesRequested (t1 ++ t2) = (pagesRequested t1 ++ pagesRequested t2)%list.
Proof. apply flat_map_app. Qed.

Lemma commitsFetched_GetCommit shas :
  commitsFetched (List.map EvGetCommit shas) = shas.
Proof. induction shas as [|x shas IH]; cbn; [reflexivity|]. f_equal. exact IH. Qed.

Lemma pagesRequested_GetCommit shas :
  pagesRequested (List.map EvGetCommit shas) = [].
Proof. induction shas as [|x shas IH]; cbn; [reflexivity|exact IH]. Qed.

(** ** The scan of a repository whose commits come page by page *)

Section PagedScan.

Variable cfg : Config.
Variable pages : list (list string).
Variable commits : string -> RepositoryCommit.
Variable issues : result (list Issue).
Variable comments : result (list string).
Variable created : result Z.
Variable p : pullRequest.
Hypothesis cfg_safe : safeConfig cfg.

Let cli : Client := pagedClient pages commits issues comments created.
Let d (sha : string) : pullRequestStatus := dispositionOf cfg (commits sha).
Let after (shas : list string) (st : scanState) : scanState :=
  fold_left (step cfg) (List.map commits shas) st.

Lemma status_after shas st :
  status (after shas st) = adopt (status st) (maxStatus (List.map d shas)).
Proof.
  unfold after. rewrite status_fold_step, map_map. reflexivity.
Qed.

Lemma scanCommits_paged shas st :
  status_leb (status st) prSkipped = true ->
  scanCommits cfg cli p shas st =
    (List.map EvGetCommit (examined d shas), Done (after (examined d shas) st)) /\
  status_ltb prSkipped (status (after (examined d shas) st)) = strongIn d shas.
Proof.
  revert st. induction shas as [|sha shas IH]; intros st Hweak.
  - split; [reflexivity|]. cbn. rewrite status_ltb_leb, Hweak. reflexivity.
  - cbn [scanCommits].
    rewrite (examine_ok cfg cli p sha st (commits sha) cfg_safe eq_refl).
    cbn [bind]. cbn [examined strongIn existsb].
    assert (Hst : status_ltb prSkipped (status (step cfg st (commits sha)))
                  = status_ltb prSkipped (d sha))
      by (cbn [step status]; apply adopt_strong; exact Hweak).
    rewrite Hst. destruct (status_ltb prSkipped (d sha)) eqn:Hd.
    + split; [reflexivity|]. cbn [orb]. exact Hst.
    + assert (Hweak' : status_leb (status (step cfg st (commits sha))) prSkipped = true).
      { rewrite status_ltb_leb in Hst. apply negb_false_iff in Hst. exact Hst. }
      destruct (IH _ Hweak') as [-> Hstrong].
      split; [reflexivity|]. cbn [orb]. exact Hstrong.
Qed.

Lemma ListCommits_paged page pre pg rest :
  pages = (pre ++ pg :: rest)%list ->
  Nat.max page 1 = S (List.length pre) ->
  ListCommits cli (OwnerLogin (repo p)) (RepoName (repo p)) (Number (pr p)) page
    = Ok (pg, match rest with [] => O | _ => S (S (List.length pre)) end).
Proof.
  intros Hpages Hpage. unfold cli, pagedClient. cbn [ListCommits].
  rewrite Hpage, Hpages.
  replace (S (List.length pre) - 1)%nat with (List.length pre) by lia.
  rewrite nth_middle, length_app. cbn [List.length].
  destruct rest as [|pg' rest]; cbn [List.length].
  - destruct (Nat.ltb_spec (S (List.length pre)) (List.length pre + 1)); [lia|reflexivity].
  - destruct (Nat.ltb_spec (S (List.length pre))
                (List.length pre + S (S (List.length rest)))); [reflexivity|lia].
Qed.

(** The scan of the pages [suf] that follow the pages [pre]. *)
Lemma scanPages_paged suf :
  forall pre fuel page st,
    pages = (pre ++ suf)%list -> suf <> [] ->
    Nat.max page 1 = S (List.length pre) ->
    (List.length suf <= fuel)%nat ->
    status_leb (status st) prSkipped = true ->
    let m := scanPages fuel cfg cli p page st in
    let ex := examined d (concat suf) in
    returned m = Done (after ex st) /\
    commitsFetched (trace m) = ex /\
    (status_leb (status (after ex st)) prSkipped = true ->
     pagesRequested (trace m)
       = page :: seq (S (S (List.length pre))) (List.length suf - 1)).
Proof.
  induction suf as [|pg rest IH]; intros pre fuel page st Hpages Hne Hpage Hfuel Hweak;
    [congruence|].
  destruct fuel as [|fuel]; [cbn in Hfuel; lia|].
  cbn [scanPages]. rewrite Hweak. unfold remote.
  rewrite (ListCommits_paged page pre pg rest Hpages Hpage).
  cbn [bind].
  destruct (scanCommits_paged pg st Hweak) as [Hscan Hstrong].
  rewrite Hscan. cbn [bind concat].
  destruct (strongIn d pg) eqn:Hpg.
  - (* a commit of this page is better than prSkipped: the scan ends *)
    rewrite (examined_app_strong d pg (concat rest) Hpg).
    assert (Hend : forall n, (if Nat.eqb n 0 then ret (after (examined d pg) st)
                   else scanPages fuel cfg cli p n (after (examined d pg) st))
                  = ret (after (examined d pg) st)).
    { intros n. destruct (Nat.eqb n 0); [reflexivity|].
      destruct fuel; cbn [scanPages];
        rewrite status_ltb_leb in Hstrong; apply negb_true_iff in Hstrong;
        rewrite Hstrong; reflexivity. }
    rewrite Hend. cbn [ret app trace returned fst snd].
    rewrite app_nil_r. repeat split.
    + cbn. apply commitsFetched_GetCommit.
    + intros Hw. rewrite status_ltb_leb, Hw in Hstrong. discriminate.
  - rewrite (examined_weak d pg Hpg) in *.
    rewrite (examined_app_weak d pg (concat rest) Hpg).
    assert (Hweak1 : status_leb (status (after pg st)) prSkipped = true).
    { rewrite status_ltb_leb in Hstrong. apply negb_false_iff in Hstrong. exact Hstrong. }
    assert (Hafter : forall xs, after (pg ++ xs) st = after xs (after pg st)).
    { intros xs. unfold after. rewrite map_app, fold_left_app. reflexivity. }
    destruct rest as [|pg' rest].
    + cbn [Nat.eqb concat examined]. rewrite app_nil_r.
      cbn [ret app trace returned fst snd]. rewrite app_nil_r. repeat split.
      cbn. apply commitsFetched_GetCommit.
      intros _. cbn. rewrite pagesRequested_GetCommit. reflexivity.
    + cbn [Nat.eqb].
      destruct (IH (pre ++ [pg])%list fuel (S (S (List.length pre))) (after pg st))
        as (Hret & Hfetched & Hpagesreq).
      * rewrite <- app_assoc. exact Hpages.
      * discriminate.
      * rewrite length_app. cbn [List.length]. lia.
      * cbn [List.length] in *. lia.
      * exact Hweak1.
      * set (m' := scanPages fuel cfg cli p (S (S (List.length pre))) (after pg st)) in *.
        rewrite (M_eta m'). cbn [trace returned fst snd].
        rewrite Hafter. repeat split.
        -- exact Hret.
        -- cbn. rewrite commitsFetched_app, commitsFetched_GetCommit, Hfetched.
           reflexivity.
        -- intros Hw. cbn.
           rewrite pagesRequested_app, pagesRequested_GetCommit, (Hpagesreq Hw).
           cbn [app]. rewrite length_app. cbn [List.length].
           replace (List.length pre + 1)%nat with (S (List.length pre)) by lia.
           replace (S (S (List.length rest)) - 1)%nat with (S (List.length rest)) by lia.
           replace (S (List.length rest) - 1)%nat with (List.length rest) by lia.
           reflexivity.
Qed.

End PagedScan.

(** The scan of a pull request of such a repository, from its start:
    the commits fetched are those up to and including the first whose
    disposition is better than [prSkipped]. *)
Lemma scan_paged cfg pages commits issues comments created p fuel :
  safeConfig cfg ->
  (List.length pages < fuel)%nat ->
  let cli := pagedClient pages commits issues comments created in
  let m := scanPages fuel cfg cli p 0 initialState in
  let ex := examined (fun sha => dispositionOf cfg (commits sha)) (concat pages) in
  let st := fold_left (step cfg) (List.map commits ex) initialState in
  returned m = Done st /\
  commitsFetched (trace m) = ex /\
  (status_leb (status st) prSkipped = true ->
   pagesRequested (trace m) = allPages (List.length pages)).
Proof.
  intros Hsafe Hfuel. destruct pages as [|pg rest] eqn:Hpages.
  - destruct fuel as [|fuel]; [cbn in Hfuel; lia|].
    cbn. repeat split.
  - rewrite <- Hpages in *.
    apply (scanPages_paged cfg pages commits issues comments created p Hsafe
             pages [] fuel O initialState).
    + reflexivity.
    + rewrite Hpages. discriminate.
    + reflexivity.
    + lia.
    + reflexivity.
Qed.

(** ** Which remote calls a scan makes *)

Lemma examine_trace (P : event -> Prop) cfg cli p sha st :
  P (EvGetCommit sha) -> Forall P (trace (examine cfg cli p sha st)).
Proof.
  intros HP. unfold examine. apply Forall_trace_bind.
  - repeat constructor. exact HP.
  - intros [c|e]; [|constructor].
    apply Forall_trace_bind; [constructor|]. intros disp. constructor.
Qed.

Lemma scanCommits_trace (P : event -> Prop) cfg cli p shas st :
  (forall sha, P (EvGetCommit sha)) ->
  Forall P (trace (scanCommits cfg cli p shas st)).
Proof.
  intros HP. revert st. induction shas as [|sha shas IH]; intros st; [constructor|].
  cbn [scanCommits]. apply Forall_trace_bind.
  - apply examine_trace, HP.
  - intros st'. destruct (status_ltb prSkipped (status st')); [constructor|apply IH].
Qed.

Lemma scanPages_trace (P : event -> Prop) fuel cfg cli p page st :
  (forall sha, P (EvGetCommit sha)) ->
  (forall n pg held, status_leb held prSkipped = true -> P (EvListCommits n pg held)) ->
  Forall P (trace (scanPages fuel cfg cli p page st)).
Proof.
  intros HG HL. revert page st. induction fuel as [|fuel IH]; intros page st.
  - cbn [scanPages]. destruct (status_leb (status st) prSkipped); constructor.
  - cbn [scanPages]. destruct (status_leb (status st) prSkipped) eqn:Hweak;
      [|constructor].
    apply Forall_trace_bind.
    + repeat constructor. apply HL, Hweak.
    + intros [[repoCommits nextPage]|e]; [|constructor].
      apply Forall_trace_bind; [apply scanCommits_trace, HG|].
      intros st'. destruct (Nat.eqb nextPage 0); [constructor|apply IH].
Qed.

(** Once the disposition is better than [prSkipped], the loop over the
    pages makes no call. *)
Lemma scanPages_strong fuel cfg cli p page st :
  status_ltb prSkipped (status st) = true ->
  scanPages fuel cfg cli p page st = ret st.
Proof.
  intros H. rewrite status_ltb_leb in H. apply negb_true_iff in H.
  destruct fuel; cbn [scanPages]; rewrite H; reflexivity.
Qed.

Lemma examine_Done cfg cli p sha st st' :
  returned (examine cfg cli p sha st) = Done st' ->
  trace (examine cfg cli p sha st) = [EvGetCommit sha].
Proof.
  unfold examine, remote.
  destruct (GetCommit cli _ _ sha) as [c|e]; cbn [bind]; [|discriminate].
  unfold lift. destruct (checkCommitMetadata cfg c); cbn; intros H;
    (reflexivity || discriminate H).
Qed.

(** A scan of a page that starts with a disposition no better than
    [prSkipped] and ends with a better one ends with the fetch of a
    commit. *)
Lemma scanCommits_ends_with_fetch cfg cli p shas st st' :
  status_leb (status st) prSkipped = true ->
  returned (scanCommits cfg cli p shas st) = Done st' ->
  status_ltb prSkipped (status st') = true ->
  exists tr sha, trace (scanCommits cfg cli p shas st) = (tr ++ [EvGetCommit sha])%list.
Proof.
  revert st. induction shas as [|sha shas IH]; intros st Hweak Hret Hstrong.
  - cbn in Hret. injection Hret as <-.
    rewrite status_ltb_leb, Hweak in Hstrong. discriminate.
  - cbn [scanCommits] in *. rewrite returned_bind in Hret. rewrite trace_bind.
    destruct (returned (examine cfg cli p sha st)) as [st1| | |] eqn:Hex;
      try discriminate Hret.
    rewrite (examine_Done _ _ _ _ _ _ Hex).
    destruct (status_ltb prSkipped (status st1)) eqn:Hst1.
    + exists [], sha. reflexivity.
    + assert (Hweak1 : status_leb (status st1) prSkipped = true)
        by (rewrite status_ltb_leb in Hst1; apply negb_false_iff in Hst1; exact Hst1).
      destruct (IH st1 Hweak1 Hret Hstrong) as (tr & sha' & ->).
      exists (EvGetCommit sha :: tr), sha'. reflexivity.
Qed.

Lemma scanPages_ends_with_fetch fuel cfg cli p page st st' :
  status_leb (status st) prSkipped = true ->
  returned (scanPages fuel cfg cli p page st) = Done st' ->
  status_ltb prSkipped (status st') = true ->
  exists tr sha,
    trace (scanPages fuel cfg cli p page st) = (tr ++ [EvGetCommit sha])%list.
Proof.
  revert page st. induction fuel as [|fuel IH]; intros page st Hweak Hret Hstrong;
    cbn [scanPages] in *; rewrite Hweak in *; [discriminate Hret|].
  rewrite returned_bind in Hret. rewrite trace_bind.
  unfold remote in *. cbn [returned trace fst snd] in *.
  destruct (ListCommits cli _ _ _ page) as [[repoCommits nextPage]|e];
    [|discriminate Hret].
  rewrite returned_bind in Hret. rewrite trace_bind.
  destruct (returned (scanCommits cfg cli p repoCommits st)) as [st1| | |] eqn:Hsc;
    try discriminate Hret.
  destruct (status_ltb prSkipped (status st1)) eqn:Hst1.
  - destruct (scanCommits_ends_with_fetch _ _ _ _ _ _ Hweak Hsc Hst1) as (tr & sha & ->).
    assert ((if Nat.eqb nextPage 0 then ret st1
             else scanPages fuel cfg cli p nextPage st1) = ret st1) as ->
      by (destruct (Nat.eqb nextPage 0); [reflexivity|apply scanPages_strong, Hst1]).
    exists (EvListCommits (Number (pr p)) page (status st) :: tr), sha.
    cbn. rewrite app_nil_r. reflexivity.
  - assert (Hweak1 : status_leb (status st1) prSkipped = true)
      by (rewrite status_ltb_leb in Hst1; apply negb_false_iff in Hst1; exact Hst1).
    destruct (Nat.eqb nextPage 0).
    + cbn in Hret. injection Hret as <-. rewrite Hst1 in Hstrong. discriminate.
    + destruct (IH nextPage st1 Hweak1 Hret Hstrong) as (tr & sha & ->).
      exists (EvListCommits (Number (pr p)) page (status st)
                :: trace (scanCommits cfg cli p repoCommits st) ++ tr)%list, sha.
      cbn. rewrite <- app_assoc. reflexivity.
Qed.

(** C8.  The loop over the pages makes no call once the disposition held
    is better than [prSkipped]: every page is requested while the
    disposition held is no better than [prSkipped], and a scan that ends
    with a better disposition ends with the fetch of a commit, not with
    the request of a page.  A scan that ends with a disposition no better
    than [prSkipped] -- [prSkipped] itself included -- has requested
    every page and fetched every commit. *)
Theorem scan_stops_only_above_skipped :
  (forall fuel cfg cli p page st,
     status_ltb prSkipped (status st) = true ->
     scanPages fuel cfg cli p page st = ret st) /\
  (forall fuel cfg cli p page st,
     Forall requestedWhileWeak (trace (scanPages fuel cfg cli p page st))) /\
  (forall fuel cfg cli p page st st',
     status_leb (status st) prSkipped = true ->
     returned (scanPages fuel cfg cli p page st) = Done st' ->
     status_ltb prSkipped (status st') = true ->
     exists tr sha,
       trace (scanPages fuel cfg cli p page st) = (tr ++ [EvGetCommit sha])%list) /\
  (forall cfg pages commits issues comments created p fuel,
     safeConfig cfg ->
     (List.length pages < fuel)%nat ->
     let cli := pagedClient pages commits issues comments created in
     let m := scanPages fuel cfg cli p 0 initialState in
     exists st,
       returned m = Done st /\
       commitsFetched (trace m)
         = examined (fun sha => dispositionOf cfg (commits sha)) (concat pages) /\
       (status_leb (status st) prSkipped = true ->
        pagesRequested (trace m) = allPages (List.length pages) /\
        commitsFetched (trace m) = concat pages)).
Proof.
  split; [|split; [|split]].
  - apply scanPages_strong.
  - intros. apply scanPages_trace.
    + intros sha. exact I.
    + intros n pg held H. exact H.
  - apply scanPages_ends_with_fetch.
  - intros cfg pages commits issues comments created p fuel Hsafe Hfuel cli m.
    destruct (scan_paged cfg pages commits issues comments created p fuel Hsafe Hfuel)
      as (Hret & Hfetched & Hpagesreq).
    eexists. split; [exact Hret|]. split; [exact Hfetched|].
    intros Hweak. split; [exact (Hpagesreq Hweak)|].
    fold cli m in Hfetched. rewrite Hfetched. apply examined_weak.
    rewrite <- strongIn_examined, strongIn_maxStatus.
    rewrite status_fold_step in Hweak. cbn [initialState status] in Hweak.
    rewrite adopt_failed_l, map_map in Hweak.
    rewrite status_ltb_leb, Hweak. reflexivity.
Qed.

(** Three pages, one commit each: [skip-issuebot] on the first page does
    not end the scan, the issue link on the second page does, and the
    third page is never requested. *)
Example scan_three_pages :
  let m := scanPages 10 plainConfig (sampleClient [["c33"]; ["b22"]; ["a11"]])
             samplePR 0 initialState in
  pagesRequested (trace m) = [0%nat; 2%nat] /\
  commitsFetched (trace m) = ["c33"; "b22"] /\
  returned m = Done {| status := prLinked; totalDiff := 90 |}.
Proof. vm_compute. repeat split. Qed.

(** A scan that finds nothing better than [skip-issuebot] requests both
    pages. *)
Lemma scan_stops_only_above_skipped_witness :
  let m := scanPages 10 plainConfig (sampleClient [["c33"]; ["f66"]])
             samplePR 0 initialState in
  exists st,
    returned m = Done st /\
    commitsFetched (trace m)
      = examined (fun sha => dispositionOf plainConfig (sampleCommits sha))
          (concat [["c33"]; ["f66"]]) /\
    (status_leb (status st) prSkipped = true ->
     pagesRequested (trace m) = allPages 2 /\
     commitsFetched (trace m) = concat [["c33"]; ["f66"]]).
Proof.
  apply (proj2 (proj2 (proj2 scan_stops_only_above_skipped))
           plainConfig [["c33"]; ["f66"]] sampleCommits (Ok []) (Ok []) (Ok 101)
           samplePR 10%nat).
  - exact I.
  - cbn. lia.
Defined.

(** C2, as amended.  For a pull request whose commits come page by page,
    the scan returns, and the disposition it has accumulated is the
    maximum of the dispositions of the commits it has examined, which are
    the commits up to and including the first whose disposition is better
    than [prSkipped].  When no commit has a disposition better than
    [prSkipped], that is the maximum over all the commits, whatever their
    order. *)
Theorem scan_status_is_max_of_examined
    cfg pages commits issues comments created p fuel :
  safeConfig cfg ->
  (List.length pages < fuel)%nat ->
  let scan pgs :=
    scanPages fuel cfg (pagedClient pgs commits issues comments created) p 0
      initialState in
  let d sha := dispositionOf cfg (commits sha) in
  exists st,
    returned (scan pages) = Done st /\
    commitsFetched (trace (scan pages)) = examined d (concat pages) /\
    status st = maxStatus (List.map d (commitsFetched (trace (scan pages)))) /\
    (status_leb (maxStatus (List.map d (concat pages))) prSkipped = true ->
     status st = maxStatus (List.map d (concat pages)) /\
     forall pages',
       Permutation (concat pages) (concat pages') ->
       (List.length pages' < fuel)%nat ->
       exists st', returned (scan pages') = Done st' /\ status st' = status st).
Proof.
  intros Hsafe Hfuel scan d.
  assert (Hscan : forall pgs, (List.length pgs < fuel)%nat ->
            returned (scan pgs) =
              Done (fold_left (step cfg)
                      (List.map commits (examined d (concat pgs))) initialState) /\
            commitsFetched (trace (scan pgs)) = examined d (concat pgs)).
  { intros pgs Hlen.
    destruct (scan_paged cfg pgs commits issues comments created p fuel Hsafe Hlen)
      as (Hret & Hfetched & _).
    split; assumption. }
  assert (Hstatus : forall shas,
            status (fold_left (step cfg) (List.map commits shas) initialState)
            = maxStatus (List.map d shas)).
  { intros shas. rewrite status_fold_step. cbn [initialState status].
    rewrite adopt_failed_l, map_map. reflexivity. }
  assert (Hall : forall shas,
            status_leb (maxStatus (List.map d shas)) prSkipped = true ->
            examined d shas = shas).
  { intros shas Hweak. apply examined_weak.
    rewrite strongIn_maxStatus, status_ltb_leb, Hweak. reflexivity. }
  destruct (Hscan pages Hfuel) as [Hret Hfetched].
  eexists. split; [exact Hret|]. split; [exact Hfetched|].
  split; [rewrite Hfetched; apply Hstatus|].
  intros Hweak. rewrite Hstatus, (Hall _ Hweak). split; [reflexivity|].
  intros pages' Hperm Hfuel'.
  destruct (Hscan pages' Hfuel') as [Hret' _].
  eexists. split; [exact Hret'|].
  assert (Hmax : maxStatus (List.map d (concat pages'))
                 = maxStatus (List.map d (concat pages)))
    by (symmetry; apply maxStatus_Permutation, Permutation_map, Hperm).
  rewrite Hstatus, Hall by (rewrite Hmax; exact Hweak).
  exact Hmax.
Qed.

(** Two commits without an issue link, in one page. *)
Lemma scan_status_is_max_of_examined_witness :
  let scan pgs := scanPages 10 plainConfig (sampleClient pgs) samplePR 0 initialState in
  let d sha := dispositionOf plainConfig (sampleCommits sha) in
  exists st,
    returned (scan [["c33"; "f66"]]) = Done st /\
    commitsFetched (trace (scan [["c33"; "f66"]]))
      = examined d (concat [["c33"; "f66"]]) /\
    status st = maxStatus (List.map d (commitsFetched (trace (scan [["c33"; "f66"]])))) /\
    (status_leb (maxStatus (List.map d (concat [["c33"; "f66"]]))) prSkipped = true ->
     status st = maxStatus (List.map d (concat [["c33"; "f66"]])) /\
     forall pages',
       Permutation (concat [["c33"; "f66"]]) (concat pages') ->
       (List.length pages' < 10)%nat ->
       exists st', returned (scan pages') = Done st' /\ status st' = status st).
Proof.
  apply (scan_status_is_max_of_examined plainConfig [["c33"; "f66"]] sampleCommits
           (Ok []) (Ok []) (Ok 101) samplePR 10%nat).
  - exact I.
  - cbn. lia.
Defined.

(** C2, as stated, fails when a commit better than [prSkipped] comes
    before a better one: with a [#cleanup] commit followed by a commit
    that links an issue, the scan ends at [prCleanup], which is not the
    maximum [prLinked] of the two; in the other order it ends at
    [prLinked]. *)
Lemma scan_status_depends_on_order :
  let scan pgs := scanPages 10 plainConfig (sampleClient pgs) samplePR 0 initialState in
  let d sha := dispositionOf plainConfig (sampleCommits sha) in
  List.map d ["a11"; "b22"] = [prCleanup; prLinked] /\
  maxStatus (List.map d ["a11"; "b22"]) = prLinked /\
  returned (scan [["a11"; "b22"]]) = Done {| status := prCleanup; totalDiff := 40 |} /\
  returned (scan [["b22"; "a11"]]) = Done {| status := prLinked; totalDiff := 60 |}.
Proof. vm_compute. repeat split. Qed.

(** ** The small-diff exemption *)

Lemma evaluate_after_scan fuel cfg cli p st :
  returned (scanPages fuel cfg cli p 0 initialState) = Done st ->
  evaluate fuel cfg cli p =
  bind (trace (scanPages fuel cfg cli p 0 initialState), Done st)
    (fun st =>
       let status := smallDiff st in
       _ <- (if status_eqb status prSkipped && enableStubIssues cfg
             then stubIssueStep cli p
             else ret (0, None)) ;;
       _ <- (if status_eqb status prFailed
             then annotateCommitStatus cli p (HeadSHA (pr p)) true
             else ret tt) ;;
       ret status).
Proof.
  intros Hret. unfold evaluate. fold initialState.
  rewrite (M_eta (scanPages fuel cfg cli p 0 initialState)) at 1.
  rewrite Hret. reflexivity.
Qed.

Lemma totalDiff_fold_step cfg cs st :
  totalDiff (fold_left (step cfg) cs st) =
  fold_left (fun t c => wrapInt (t + StatsTotal c)) cs (totalDiff st).
Proof.
  revert st. induction cs as [|c cs IH]; intros st; cbn [fold_left]; [reflexivity|].
  rewrite IH. reflexivity.
Qed.

Lemma wrapInt_small z : - 2 ^ 63 <= z < 2 ^ 63 -> wrapInt z = z.
Proof. intros H. unfold wrapInt. rewrite Z.mod_small; lia. Qed.

(** The total the scan accumulates is the sum, as Go's [int] computes
    it, of the changed lines of the commits it has fetched. *)
Lemma scan_totalDiff_paged cfg pages commits issues comments created p fuel :
  safeConfig cfg ->
  (List.length pages < fuel)%nat ->
  let m := scanPages fuel cfg (pagedClient pages commits issues comments created)
             p 0 initialState in
  exists st,
    returned m = Done st /\
    totalDiff st =
      fold_left (fun t c => wrapInt (t + StatsTotal c))
        (List.map commits (commitsFetched (trace m))) 0.
Proof.
  intros Hsafe Hfuel m.
  destruct (scan_paged cfg pages commits issues comments created p fuel Hsafe Hfuel)
    as (Hret & Hfetched & _).
  eexists. split; [exact Hret|]. fold m in Hfetched. rewrite Hfetched.
  apply totalDiff_fold_step.
Qed.

(** C6.  When the scan ends with a disposition no better than
    [prSkipped] and a total of changed lines below 5, the final
    disposition is [prSmall]: no stub issue is looked up or created and no
    status is written.  When the scan ends with a better disposition, or
    with a total of 5 or more, the final disposition is the one of the
    scan. *)
Theorem small_diff_exemption fuel cfg cli p st :
  returned (scanPages fuel cfg cli p 0 initialState) = Done st ->
  (status_leb (status st) prSkipped = true -> totalDiff st < 5 ->
   evaluate fuel cfg cli p =
     (trace (scanPages fuel cfg cli p 0 initialState), Done prSmall) /\
   Forall (fun e => isScanEvent e = true) (trace (evaluate fuel cfg cli p))) /\
  (status_ltb prSkipped (status st) = true ->
   evaluate fuel cfg cli p =
     (trace (scanPages fuel cfg cli p 0 initialState), Done (status st))) /\
  (status_leb (status st) prSkipped = true -> 5 <= totalDiff st ->
   forall s, returned (evaluate fuel cfg cli p) = Done s ->
             s = status st /\ s <> prSmall).
Proof.
  intros Hret. rewrite (evaluate_after_scan _ _ _ _ _ Hret). cbn [bind].
  split; [|split].
  - intros Hweak Hsmall.
    assert (smallDiff st = prSmall) as ->.
    { unfold smallDiff. rewrite Hweak. cbn [andb].
      destruct (Z.ltb_spec (totalDiff st) 5); [reflexivity|lia]. }
    cbn. rewrite app_nil_r. split; [reflexivity|].
    apply scanPages_trace; reflexivity.
  - intros Hstrong.
    assert (smallDiff st = status st) as ->.
    { unfold smallDiff. rewrite status_ltb_leb in Hstrong.
      apply negb_true_iff in Hstrong. rewrite Hstrong. reflexivity. }
    assert (status_eqb (status st) prSkipped = false) as ->
      by (destruct (status st); (discriminate Hstrong || reflexivity)).
    assert (status_eqb (status st) prFailed = false) as ->
      by (destruct (status st); (discriminate Hstrong || reflexivity)).
    cbn. rewrite app_nil_r. reflexivity.
  - intros Hweak Hlarge s.
    assert (smallDiff st = status st) as ->.
    { unfold smallDiff. rewrite Hweak. cbn [andb].
      destruct (Z.ltb_spec (totalDiff st) 5); [lia|reflexivity]. }
    match goal with
    | |- context [bind ?x ?f] =>
        destruct (bind x f) as [t o] eqn:Hk;
        pose proof (f_equal returned Hk) as Hr; rewrite returned_bind in Hr
    end.
    cbn [returned snd] in *. intros ->.
    destruct (returned (if status_eqb (status st) prSkipped && enableStubIssues cfg
                        then stubIssueStep cli p else ret (0, None)));
      try discriminate Hr.
    rewrite returned_bind in Hr.
    destruct (returned (if status_eqb (status st) prFailed
                        then annotateCommitStatus cli p (HeadSHA (pr p)) true
                        else ret tt)); try discriminate Hr.
    cbn in Hr. injection Hr as <-. split; [reflexivity|].
    intros Heq. rewrite Heq in Hweak. discriminate Hweak.
Qed.

(** Scenario B of the design document: one commit, [Fixed the typo],
    two changed lines. *)
Lemma small_diff_exemption_witness :
  evaluate 10 plainConfig (sampleClient [["d44"]]) samplePR =
    (trace (scanPages 10 plainConfig (sampleClient [["d44"]]) samplePR 0 initialState),
     Done prSmall) /\
  Forall (fun e => isScanEvent e = true)
    (trace (evaluate 10 plainConfig (sampleClient [["d44"]]) samplePR)).
Proof.
  apply (proj1 (small_diff_exemption 10 plainConfig (sampleClient [["d44"]]) samplePR
                  {| status := prFailed; totalDiff := 2 |} eq_refl)).
  - reflexivity.
  - cbn. lia.
Defined.

(** ** The stub-issue manager *)

Lemma findComment_total comments : exists found, findComment comments = Done found.
Proof.
  induction comments as [|body rest IH]; cbn [findComment]; [eauto|].
  destruct (regexp.FindStringSubmatch issueCommentRE body) as [m|] eqn:Hm; [|exact IH].
  pose proof (FindStringSubmatch_length _ _ _ Hm) as Hlen.
  change (regexp.NumSubexp issueCommentRE) with 1%nat in Hlen.
  destruct (index1_of_length m ltac:(lia)) as (m1 & _ & ->). eauto.
Qed.

(** What [checkStubIssue] does, by the answers of the two lists. *)
Lemma checkStubIssue_cases cli p :
  let owner := OwnerLogin (repo p) in
  let repoName := RepoName (repo p) in
  let number := Number (pr p) in
  let evIssues := EvListByRepo (UserLogin (pr p)) [issuebotStubLabel] "open" in
  match ListByRepo cli owner repoName (UserLogin (pr p)) [issuebotStubLabel] "open" with
  | Err e => checkStubIssue cli p = ([evIssues], Done (0, Some ("list issues: " ++ e)))
  | Ok issues =>
      match findTitle (issueTitle number) issues with
      | Some n => checkStubIssue cli p = ([evIssues], Done (n, None))
      | None =>
          match ListComments cli owner repoName number with
          | Err e =>
              checkStubIssue cli p =
                ([evIssues; EvListComments number],
                 Done (0, Some ("list comments: " ++ e)))
          | Ok comments =>
              exists found,
                findComment comments = Done found /\
                checkStubIssue cli p =
                  ([evIssues; EvListComments number],
                   Done (match found with Some n => n | None => 0 end, None))
          end
      end
  end.
Proof.
  intros owner repoName number evIssues. unfold checkStubIssue, remote.
  fold owner repoName number evIssues.
  destruct (ListByRepo cli owner repoName (UserLogin (pr p)) [issuebotStubLabel] "open")
    as [issues|e]; [|reflexivity].
  cbn [bind]. destruct (findTitle (issueTitle number) issues) as [n|]; [reflexivity|].
  destruct (ListComments cli owner repoName number) as [comments|e]; [|reflexivity].
  destruct (findComment_total comments) as [found Hfound].
  exists found. split; [exact Hfound|].
  cbn [bind]. unfold lift. rewrite Hfound. destruct found; reflexivity.
Qed.


Lemma createStubIssue_shape cli p :
  exists req rest r,
    createStubIssue cli p = (EvCreateIssue req :: rest, Done r) /\
    ReqTitle req = issueTitle (Number (pr p)) /\
    ReqAssignee req = UserLogin (pr p) /\
    ReqLabels req = [issuebotStubLabel].
Proof.
  unfold createStubIssue, remote.
  destruct (CreateIssue cli _ _ _) as [issue|e]; cbn [bind];
    do 3 eexists; (split; [reflexivity|]); repeat split.
Qed.



Lemma stubIssueStep_not_found cli p err :
  returned (checkStubIssue cli p) = Done (0, err) ->
  stubIssueStep cli p =
    ((trace (checkStubIssue cli p) ++ trace (createStubIssue cli p))%list,
     returned (createStubIssue cli p)).
Proof.
  intros Hret. unfold stubIssueStep.
  rewrite (M_eta (checkStubIssue cli p)) at 1. rewrite Hret. cbn [bind fst].
  cbn [Z.ltb Z.compare]. rewrite (M_eta (createStubIssue cli p)) at 1. reflexivity.
Qed.

(** ** Order of the calls in a whole evaluation *)








(** The number 0 is how [checkStubIssue] says that there is no stub
    issue: a comment that the recognition pattern matches with the
    number 0 is not a report of an existing issue. *)
Example zero_in_comment_is_no_report :
  let cli := pagedClient [["c33"]] sampleCommits (Ok [])
               (Ok ["IssueBot here. I have filed issue #0 for you"]) (Ok 101) in
  returned (checkStubIssue cli samplePR) = Done (0, None) /\
  existsb isCreateIssue (trace (evaluate 10 plainConfig cli samplePR)) = true.
Proof. vm_compute. split; reflexivity. Qed.

(** C10.  When the list of the stub issues, or the list of the comments
    after it, fails, [checkStubIssue] returns 0 and the error, and the
    engine goes on to create a stub issue; the issue number and the error
    it ends with are those of the creation, the error of the lookup is
    dropped. *)
Theorem lookup_failure_still_creates cli p e :
  ListByRepo cli (OwnerLogin (repo p)) (RepoName (repo p)) (UserLogin (pr p))
    [issuebotStubLabel] "open" = Err e \/
  (exists issues,
     ListByRepo cli (OwnerLogin (repo p)) (RepoName (repo p)) (UserLogin (pr p))
       [issuebotStubLabel] "open" = Ok issues /\
     findTitle (issueTitle (Number (pr p))) issues = None /\
     ListComments cli (OwnerLogin (repo p)) (RepoName (repo p)) (Number (pr p))
       = Err e) ->
  (exists msg, returned (checkStubIssue cli p) = Done (0, Some msg)) /\
  (exists req rest,
     trace (stubIssueStep cli p)
       = (trace (checkStubIssue cli p) ++ EvCreateIssue req :: rest)%list /\
     ReqTitle req = issueTitle (Number (pr p))) /\
  returned (stubIssueStep cli p) = returned (createStubIssue cli p) /\
  (forall fuel cfg st,
     returned (scanPages fuel cfg cli p 0 initialState) = Done st ->
     smallDiff st = prSkipped ->
     enableStubIssues cfg = true ->
     returned (evaluate fuel cfg cli p) = Done prSkipped /\
     exists req, In (EvCreateIssue req) (trace (evaluate fuel cfg cli p))).
Proof.
  intros Hfail.
  assert (Hret : exists msg, returned (checkStubIssue cli p) = Done (0, Some msg)).
  { pose proof (checkStubIssue_cases cli p) as H. cbn zeta in H.
    destruct Hfail as [Hl|(issues & Hl & Ht & Hc)]; rewrite Hl in H.
    - rewrite H. eauto.
    - rewrite Ht, Hc in H. rewrite H. eauto. }
  destruct Hret as [msg Hret].
  pose proof (stubIssueStep_not_found cli p (Some msg) Hret) as Hstep.
  destruct (createStubIssue_shape cli p) as (req & rest & r & Hcreate & Htitle & _).
  split; [eauto|]. split; [|split].
  - exists req, rest. rewrite Hstep, Hcreate. split; [reflexivity|exact Htitle].
  - rewrite Hstep. reflexivity.
  - intros fuel cfg st Hscan Hskipped Henabled.
    rewrite (evaluate_after_scan _ _ _ _ _ Hscan). cbn [bind].
    rewrite Hskipped, Henabled. cbn [status_eqb rank Z.eqb andb].
    rewrite Hstep, Hcreate. cbn. split; [reflexivity|].
    exists req. apply in_or_app. right. apply in_or_app. left.
    apply in_or_app. right. left. reflexivity.
Qed.

(** A pull request with a [skip-issuebot] commit, in a repository whose
    list of issues fails. *)
Lemma lookup_failure_still_creates_witness :
  let cli := pagedClient [["c33"]] sampleCommits (Err "rate limited") (Ok []) (Ok 101) in
  (exists msg, returned (checkStubIssue cli samplePR) = Done (0, Some msg)) /\
  (exists req rest,
     trace (stubIssueStep cli samplePR)
       = (trace (checkStubIssue cli samplePR) ++ EvCreateIssue req :: rest)%list /\
     ReqTitle req = issueTitle (Number (pr samplePR))) /\
  returned (stubIssueStep cli samplePR) = returned (createStubIssue cli samplePR) /\
  (forall fuel cfg st,
     returned (scanPages fuel cfg cli samplePR 0 initialState) = Done st ->
     smallDiff st = prSkipped ->
     enableStubIssues cfg = true ->
     returned (evaluate fuel cfg cli samplePR) = Done prSkipped /\
     exists req, In (EvCreateIssue req) (trace (evaluate fuel cfg cli samplePR))).
Proof.
  apply (lookup_failure_still_creates
           (pagedClient [["c33"]] sampleCommits (Err "rate limited") (Ok []) (Ok 101))
           samplePR "rate limited").
  left. reflexivity.
Defined.

Example lookup_failure_run :
  let cli := pagedClient [["c33"]] sampleCommits (Err "rate limited") (Ok []) (Ok 101) in
  returned (checkStubIssue cli samplePR)
    = Done (0, Some "list issues: rate limited") /\
  returned (stubIssueStep cli samplePR) = Done (101, None) /\
  returned (evaluate 10 plainConfig cli samplePR) = Done prSkipped /\
  List.map isCreateIssue (trace (evaluate 10 plainConfig cli samplePR))
    = [false; false; false; true; false].
Proof. vm_compute. repeat split. Qed.

(** ** The end-to-end scenarios of the design document *)

(** A: one commit with an issue link. *)
Example scenario_A :
  returned (runScenario plainConfig ["b22"]) = Done (Some prLinked) /\
  existsb isCreateStatus (trace (runScenario plainConfig ["b22"])) = false.
Proof. vm_compute. split; reflexivity. Qed.

(** C: [skip-issuebot], stub issues enabled, no stub issue yet: one issue
    is created, with the title of the pull request, and one comment is
    posted; no status is written. *)
Example scenario_C :
  returned (runScenario plainConfig ["c33"]) = Done (Some prSkipped) /\
  trace (runScenario plainConfig ["c33"]) =
    [EvListCommits 7 0 prFailed; EvGetCommit "c33";
     EvListByRepo "alice" ["issuebot-stub"] "open"; EvListComments 7;
     EvCreateIssue {| ReqTitle := "Placeholder issue for PR #7";
                      ReqAssignee := "alice";
                      ReqBody := "TODO(@alice): Add details about PR #7";
                      ReqLabels := ["issuebot-stub"] |};
     EvCreateComment 7 (issueComment 101)].
Proof. vm_compute. split; reflexivity. Qed.

(** D: the author of the only commit is [dependabot[bot]]. *)
Example scenario_D :
  returned (runScenario plainConfig ["e55"]) = Done (Some prBot) /\
  trace (runScenario plainConfig ["e55"]) = [EvListCommits 7 0 prFailed; EvGetCommit "e55"].
Proof. vm_compute. split; reflexivity. Qed.

(** E: no rule applies and the diff has 100 lines: the status written is
    a failure, with the fixed explanation. *)
Example scenario_E :
  returned (runScenario plainConfig ["f66"]) = Done (Some prFailed) /\
  trace (runScenario plainConfig ["f66"]) =
    [EvListCommits 7 0 prFailed; EvGetCommit "f66";
     EvCreateStatus "c0ffee" "failure" (Some missingCommitExplanation)] /\
  (String.length missingCommitExplanation <= 140)%nat.
Proof. vm_compute. repeat split. lia. Qed.

(** A delivery within the interval of an earlier one is not evaluated. *)
Example scenario_debounced :
  let first := checkPullRequest 10 plainConfig (sampleClient [["f66"]])
                 (pr samplePR) sampleRepo 0 ∅ in
  let second := checkPullRequest 10 plainConfig (sampleClient [["f66"]])
                  (pr samplePR) sampleRepo time.Second (fst first) in
  snd second = ([], Done None).
Proof. vm_compute. reflexivity. Qed.

(* ===================================================================== *)
(** * Further properties of the code *)
(* ===================================================================== *)

(** ** [checkCommitMetadata] *)




(** ** The remote calls of a whole evaluation *)

Lemma count_app f t1 t2 : count f (t1 ++ t2) = (count f t1 + count f t2)%nat.
Proof. unfold count. rewrite List.filter_app, length_app. reflexivity. Qed.

Lemma count_none f tr : Forall (fun e => f e = false) tr -> count f tr = O.
Proof.
  unfold count. induction 1 as [|e tr He _ IH]; [reflexivity|].
  cbn [List.filter]. rewrite He. exact IH.
Qed.

Lemma count_none_scan f tr :
  (forall e, isScanEvent e = true -> f e = false) ->
  Forall (fun e => isScanEvent e = true) tr -> count f tr = O.
Proof.
  intros Hf Htr. apply count_none. exact (List.Forall_impl _ Hf Htr).
Qed.

Lemma count_In f tr e : In e tr -> f e = true -> (1 <= count f tr)%nat.
Proof.
  unfold count. induction tr as [|x tr IH]; intros Hin He; [destruct Hin|].
  cbn [List.filter]. destruct Hin as [->|Hin].
  - rewrite He. cbn. lia.
  - specialize (IH Hin He). destruct (f x); cbn; lia.
Qed.

Lemma scan_reads_only fuel cfg cli p page st :
  Forall (fun e => isScanEvent e = true) (trace (scanPages fuel cfg cli p page st)).
Proof. apply scanPages_trace; reflexivity. Qed.

Lemma annotateCommitStatus_cases cli p sha :
  let ev := EvCreateStatus sha "failure" (Some missingCommitExplanation) in
  match CreateStatus cli (OwnerLogin (repo p)) (RepoName (repo p)) sha "failure"
          (Some missingCommitExplanation) with
  | Ok _ => annotateCommitStatus cli p sha true = ([ev], Done tt)
  | Err e =>
      annotateCommitStatus cli p sha true
        = ([ev], Fatal ("annotateCommitStatus: err=" ++ e))
  end.
Proof.
  unfold annotateCommitStatus, remote.
  destruct (CreateStatus cli _ _ _ _ _) as [[]|e]; reflexivity.
Qed.

Lemma createStubIssue_cases cli p :
  exists req,
    ReqTitle req = issueTitle (Number (pr p)) /\
    ReqAssignee req = UserLogin (pr p) /\
    ReqLabels req = [issuebotStubLabel] /\
    match CreateIssue cli (OwnerLogin (repo p)) (RepoName (repo p)) req with
    | Err e =>
        createStubIssue cli p =
          ([EvCreateIssue req], Done (0, Some ("creating issue: " ++ e)))
    | Ok issue =>
        createStubIssue cli p =
          ([EvCreateIssue req;
            EvCreateComment (Number (pr p)) (issueComment (IssueNumber issue))],
           Done (IssueNumber issue, None))
    end.
Proof.
  unfold createStubIssue, remote.
  exists {| ReqTitle := issueTitle (Number (pr p));
            ReqAssignee := UserLogin (pr p);
            ReqBody := "TODO(@" ++ UserLogin (pr p) ++ "): Add details about PR #"
                       ++ strconv.Itoa (Number (pr p));
            ReqLabels := [issuebotStubLabel] |}.
  repeat split.
  destruct (CreateIssue cli _ _ _) as [issue|e]; reflexivity.
Qed.

(** The find-or-create sequence: it returns, it lists before it writes,
    and it creates at most one issue and, after it, one comment. *)
Lemma stubIssueStep_counts cli p :
  exists tr r,
    stubIssueStep cli p = (tr, Done r) /\
    count isCreateStatus tr = O /\
    (count isCreateIssue tr <= 1)%nat /\
    (count isCreateComment tr <= count isCreateIssue tr)%nat /\
    Forall (fun e => isIssueEvent e = true) tr.
Proof.
  unfold stubIssueStep.
  pose proof (checkStubIssue_cases cli p) as Hcheck. cbn zeta in Hcheck.
  assert (Hc : exists tr r, checkStubIssue cli p = (tr, Done r) /\
                 count isWrite tr = O /\ count isCreateStatus tr = O /\
                 count isCreateIssue tr = O /\ count isCreateComment tr = O /\
                 Forall (fun e => isIssueEvent e = true) tr).
  { destruct (ListByRepo cli _ _ _ _ _) as [issues|e].
    - destruct (findTitle _ issues) as [n|].
      + rewrite Hcheck. do 2 eexists. repeat split; repeat constructor.
      + destruct (ListComments cli _ _ _) as [comments|e].
        * destruct Hcheck as (found & _ & ->).
          do 2 eexists. repeat split; repeat constructor.
        * rewrite Hcheck. do 2 eexists. repeat split; repeat constructor.
    - rewrite Hcheck. do 2 eexists. repeat split; repeat constructor. }
  destruct Hc as (tr & r & -> & _ & Hs & Hi & Hco & Hall).
  cbn [bind]. destruct (0 <? fst r).
  - cbn [ret]. rewrite app_nil_r. exists tr, r.
    repeat split; try assumption; lia.
  - destruct (createStubIssue_cases cli p) as (req & _ & _ & _ & Hcreate).
    destruct (CreateIssue cli _ _ req) as [issue|e]; rewrite Hcreate;
      do 2 eexists; (split; [reflexivity|]);
      rewrite !count_app, Hs, Hi, Hco; cbn; repeat split; try lia;
      apply Forall_app; (split; [exact Hall|]); repeat constructor.
Qed.

(** An evaluation whose scan has returned [st]: the calls of the scan,
    then those of the find-or-create sequence if it runs, then the status
    if the disposition is [prFailed]. *)
Lemma evaluate_form fuel cfg cli p st :
  returned (scanPages fuel cfg cli p 0 initialState) = Done st ->
  let stub := if status_eqb (smallDiff st) prSkipped && enableStubIssues cfg
              then stubIssueStep cli p else ret (0, None) in
  let annot := if status_eqb (smallDiff st) prFailed
               then annotateCommitStatus cli p (HeadSHA (pr p)) true else ret tt in
  exists r,
    returned stub = Done r /\
    evaluate fuel cfg cli p =
      ((trace (scanPages fuel cfg cli p 0 initialState) ++ trace stub ++ trace annot)%list,
       match returned annot with
       | Done _ => Done (smallDiff st)
       | Fatal msg => Fatal msg
       | Panic msg => Panic msg
       | OutOfFuel => OutOfFuel
       end).
Proof.
  intros Hscan stub annot.
  assert (Hstub : exists r, returned stub = Done r).
  { unfold stub. destruct (_ && _); [|cbn; eauto].
    destruct (stubIssueStep_counts cli p) as (tr & r & -> & _). cbn. eauto. }
  destruct Hstub as [r Hr]. exists r. split; [exact Hr|].
  rewrite (evaluate_after_scan _ _ _ _ _ Hscan). cbn [bind]. fold stub annot.
  rewrite (M_eta stub), Hr. cbn [bind].
  rewrite (M_eta annot). destruct (returned annot); cbn;
    rewrite ?app_nil_r; reflexivity.
Qed.

Lemma evaluate_scan_incomplete fuel cfg cli p :
  (forall st, returned (scanPages fuel cfg cli p 0 initialState) <> Done st) ->
  evaluate fuel cfg cli p =
    (trace (scanPages fuel cfg cli p 0 initialState),
     match returned (scanPages fuel cfg cli p 0 initialState) with
     | Done _ => OutOfFuel
     | Fatal msg => Fatal msg
     | Panic msg => Panic msg
     | OutOfFuel => OutOfFuel
     end).
Proof.
  intros Hnot. unfold evaluate. fold initialState.
  destruct (scanPages fuel cfg cli p 0 initialState) as [t [st|msg|msg|]];
    cbn [bind trace returned fst snd] in *; try reflexivity.
  exfalso. exact (Hnot st eq_refl).
Qed.

Lemma scan_writes_nothing fuel cfg cli p page st :
  let tr := trace (scanPages fuel cfg cli p page st) in
  count isCreateIssue tr = O /\ count isCreateComment tr = O /\
  count isCreateStatus tr = O /\ count isWrite tr = O.
Proof.
  cbn zeta. repeat split;
    (apply count_none_scan; [|apply scan_reads_only]);
    intros []; (discriminate || reflexivity).
Qed.

Lemma count_stub_part (enabled : bool) cli p :
  let stub := if enabled then stubIssueStep cli p else ret (0, None) in
  count isCreateStatus (trace stub) = O /\
  (count isCreateIssue (trace stub) <= 1)%nat /\
  (count isCreateComment (trace stub) <= count isCreateIssue (trace stub))%nat /\
  Forall (fun e => isIssueEvent e = true) (trace stub).
Proof.
  destruct enabled; cbn zeta.
  - destruct (stubIssueStep_counts cli p) as (tr & r & -> & H). exact H.
  - cbn. repeat split; try lia. constructor.
Qed.

Lemma count_annot_part (failed : bool) cli p :
  let annot := if failed then annotateCommitStatus cli p (HeadSHA (pr p)) true
               else ret tt in
  count isCreateIssue (trace annot) = O /\
  count isCreateComment (trace annot) = O /\
  count isCreateStatus (trace annot) = (if failed then 1 else 0)%nat /\
  Forall (fun e => isIssueEvent e = false) (trace annot).
Proof.
  destruct failed; cbn zeta; [|cbn; repeat split; constructor].
  pose proof (annotateCommitStatus_cases cli p (HeadSHA (pr p))) as H. cbn zeta in H.
  destruct (CreateStatus cli _ _ _ _ _); rewrite H; cbn; repeat split;
    repeat constructor.
Qed.

(** In every evaluation, however it ends: at most one issue is created,
    a comment is posted only with a created issue, at most one status is
    written, and never both an issue and a status. *)
Theorem evaluate_writes_at_most_once fuel cfg cli p :
  let tr := trace (evaluate fuel cfg cli p) in
  (count isCreateIssue tr + count isCreateStatus tr <= 1)%nat /\
  (count isCreateComment tr <= count isCreateIssue tr)%nat.
Proof.
  cbn zeta.
  destruct (returned (scanPages fuel cfg cli p 0 initialState)) as [st|msg|msg|] eqn:Hscan.
  all: destruct (scan_writes_nothing fuel cfg cli p 0 initialState)
         as (Hni & Hnc & Hns & _); cbn zeta in Hni, Hnc, Hns.
  2,3,4: rewrite evaluate_scan_incomplete by (rewrite Hscan; discriminate);
         cbn [trace fst]; rewrite Hni, Hnc, Hns; lia.
  destruct (evaluate_form fuel cfg cli p st Hscan) as (r & _ & ->).
  cbn [trace fst]. rewrite !count_app, Hni, Hnc, Hns.
  destruct (count_stub_part (status_eqb (smallDiff st) prSkipped && enableStubIssues cfg)
              cli p) as (Hs & Hi & Hc & _).
  destruct (count_annot_part (status_eqb (smallDiff st) prFailed) cli p)
    as (Hai & Hac & Has & _).
  cbn zeta in *. rewrite Hs, Hai, Hac, Has.
  destruct (status_eqb (smallDiff st) prFailed) eqn:Hfailed; [|lia].
  assert (status_eqb (smallDiff st) prSkipped = false) as Hskip
    by (destruct (smallDiff st); (discriminate Hfailed || reflexivity)).
  rewrite Hskip in *. cbn in *. lia.
Qed.

(** An evaluation that returns has written a status exactly when the
    disposition is [prFailed]: then the status is its last call, on the
    head commit, with the state [failure] and the explanation, and
    nothing has been written before it. *)
Theorem evaluate_status_iff_failed fuel cfg cli p s :
  returned (evaluate fuel cfg cli p) = Done s ->
  (s = prFailed ->
   exists tr,
     trace (evaluate fuel cfg cli p) =
       (tr ++ [EvCreateStatus (HeadSHA (pr p)) "failure"
                 (Some missingCommitExplanation)])%list /\
     count isWrite tr = O) /\
  (s <> prFailed -> count isCreateStatus (trace (evaluate fuel cfg cli p)) = O).
Proof.
  intros Hret.
  destruct (returned (scanPages fuel cfg cli p 0 initialState)) as [st|msg|msg|] eqn:Hscan.
  2,3,4: rewrite evaluate_scan_incomplete in Hret by (rewrite Hscan; discriminate);
         rewrite Hscan in Hret; discriminate Hret.
  destruct (evaluate_form fuel cfg cli p st Hscan) as (r & Hr & Heval).
  rewrite Heval in *. cbn [trace returned fst snd] in *.
  pose proof (annotateCommitStatus_cases cli p (HeadSHA (pr p))) as Hannot.
  cbn zeta in Hannot.
  destruct (status_eqb (smallDiff st) prFailed) eqn:Hfailed.
  - assert (smallDiff st = prFailed) as Hsd
      by (destruct (smallDiff st); (discriminate Hfailed || reflexivity)).
    rewrite Hsd in *. cbn [status_eqb rank Z.eqb andb] in *.
    destruct (CreateStatus cli _ _ _ _ _); rewrite Hannot in *;
      cbn [trace returned fst snd ret] in *; [|discriminate Hret].
    injection Hret as <-. split; [|congruence]. intros _.
    exists (trace (scanPages fuel cfg cli p 0 initialState)). split; [reflexivity|].
    apply (scan_writes_nothing fuel cfg cli p 0 initialState).
  - cbn [ret trace returned fst snd] in *. injection Hret as <-.
    split; [intros Hs; rewrite Hs in Hfailed; discriminate Hfailed|]. intros _.
    rewrite !count_app.
    destruct (scan_writes_nothing fuel cfg cli p 0 initialState) as (_ & _ & -> & _).
    destruct (count_stub_part
                (status_eqb (smallDiff st) prSkipped && enableStubIssues cfg) cli p)
      as (Hs & _).
    cbn zeta in Hs. rewrite Hs. reflexivity.
Qed.

(** The stub-issue manager runs only for the final disposition
    [prSkipped] and with stub issues enabled: a call of the issues API in
    the trace of an evaluation implies both. *)
Theorem issue_calls_only_when_skipped fuel cfg cli p e :
  In e (trace (evaluate fuel cfg cli p)) ->
  isIssueEvent e = true ->
  enableStubIssues cfg = true /\
  exists st,
    returned (scanPages fuel cfg cli p 0 initialState) = Done st /\
    smallDiff st = prSkipped.
Proof.
  intros Hin He.
  assert (Hscan_no : forall tr, Forall (fun x => isScanEvent x = true) tr -> ~ In e tr).
  { intros tr Htr Hine. rewrite List.Forall_forall in Htr. specialize (Htr e Hine).
    destruct e; discriminate. }
  destruct (returned (scanPages fuel cfg cli p 0 initialState)) as [st|msg|msg|] eqn:Hscan.
  2,3,4: rewrite evaluate_scan_incomplete in Hin by (rewrite Hscan; discriminate);
         exfalso; exact (Hscan_no _ (scan_reads_only _ _ _ _ _ _) Hin).
  destruct (evaluate_form fuel cfg cli p st Hscan) as (r & _ & Heval).
  rewrite Heval in Hin. cbn [trace fst] in Hin.
  apply in_app_or in Hin as [Hin|Hin];
    [exfalso; exact (Hscan_no _ (scan_reads_only _ _ _ _ _ _) Hin)|].
  apply in_app_or in Hin as [Hin|Hin].
  - destruct (status_eqb (smallDiff st) prSkipped) eqn:Hsk; [|destruct Hin].
    destruct (enableStubIssues cfg); [|destruct Hin].
    split; [reflexivity|]. exists st. split; [reflexivity|].
    destruct (smallDiff st); (discriminate Hsk || reflexivity).
  - exfalso.
    destruct (count_annot_part (status_eqb (smallDiff st) prFailed) cli p)
      as (_ & _ & _ & Hall).
    cbn zeta in Hall. rewrite List.Forall_forall in Hall.
    rewrite (Hall e Hin) in He. discriminate He.
Qed.

(** Whatever the calls of the issues API answer -- the lists or the
    creation of the issue or of the comment may fail --, a pull request
    whose final disposition is [prSkipped] passes: the evaluation returns
    [prSkipped] and writes no status. *)
Theorem stub_errors_do_not_fail fuel cfg cli p st :
  returned (scanPages fuel cfg cli p 0 initialState) = Done st ->
  smallDiff st = prSkipped ->
  returned (evaluate fuel cfg cli p) = Done prSkipped /\
  count isCreateStatus (trace (evaluate fuel cfg cli p)) = O.
Proof.
  intros Hscan Hsk.
  destruct (evaluate_form fuel cfg cli p st Hscan) as (r & _ & ->).
  rewrite Hsk. change (status_eqb prSkipped prSkipped) with true.
  change (status_eqb prSkipped prFailed) with false.
  cbn [andb trace returned fst snd ret].
  split; [reflexivity|]. rewrite !count_app.
  destruct (scan_writes_nothing fuel cfg cli p 0 initialState) as (_ & _ & -> & _).
  destruct (count_stub_part (enableStubIssues cfg) cli p) as (Hs & _).
  cbn zeta in Hs. rewrite Hs. reflexivity.
Qed.

(** Scenario E: nothing excuses the only commit. *)
Lemma evaluate_status_iff_failed_witness :
  (prFailed = prFailed ->
   exists tr,
     trace (evaluate 10 plainConfig (sampleClient [["f66"]]) samplePR) =
       (tr ++ [EvCreateStatus (HeadSHA (pr samplePR)) "failure"
                 (Some missingCommitExplanation)])%list /\
     count isWrite tr = O) /\
  (prFailed <> prFailed ->
   count isCreateStatus (trace (evaluate 10 plainConfig (sampleClient [["f66"]]) samplePR))
     = O).
Proof.
  apply (evaluate_status_iff_failed 10 plainConfig (sampleClient [["f66"]]) samplePR
           prFailed).
  vm_compute. reflexivity.
Defined.

(** Scenario C: the list of the stub issues. *)
Lemma issue_calls_only_when_skipped_witness :
  enableStubIssues plainConfig = true /\
  exists st,
    returned (scanPages 10 plainConfig (sampleClient [["c33"]]) samplePR 0 initialState)
      = Done st /\
    smallDiff st = prSkipped.
Proof.
  apply (issue_calls_only_when_skipped 10 plainConfig (sampleClient [["c33"]]) samplePR
           (EvListByRepo "alice" ["issuebot-stub"] "open")).
  - vm_compute. right. right. left. reflexivity.
  - reflexivity.
Defined.

(** A [skip-issuebot] commit in a repository where the lists succeed and
    the creation of the issue fails. *)
Lemma stub_errors_do_not_fail_witness :
  let cli := pagedClient [["c33"]] sampleCommits (Ok []) (Ok []) (Err "forbidden") in
  returned (evaluate 10 plainConfig cli samplePR) = Done prSkipped /\
  count isCreateStatus (trace (evaluate 10 plainConfig cli samplePR)) = O.
Proof.
  apply (stub_errors_do_not_fail 10 plainConfig
           (pagedClient [["c33"]] sampleCommits (Ok []) (Ok []) (Err "forbidden"))
           samplePR {| status := prSkipped; totalDiff := 30 |}).
  - vm_compute. reflexivity.
  - reflexivity.
Defined.

(** ** Failures of the calls of the scan *)

Lemma examine_GetCommit_error cfg cli p sha st e :
  GetCommit cli (OwnerLogin (repo p)) (RepoName (repo p)) sha = Err e ->
  examine cfg cli p sha st =
    ([EvGetCommit sha], Fatal ("GetCommit: sha=" ++ sha ++ " err=" ++ e)).
Proof. intros H. unfold examine, remote. rewrite H. reflexivity. Qed.

(** A failure of [ListCommits] or of [GetCommit] is fatal: the failing
    call is the last one of the scan, and an evaluation whose scan is
    fatal ends with the same message without a call after the scan --
    no issue is looked up or created and no status is written. *)
Theorem scan_failure_is_fatal fuel cfg cli p :
  (forall page st e,
     status_leb (status st) prSkipped = true ->
     ListCommits cli (OwnerLogin (repo p)) (RepoName (repo p)) (Number (pr p)) page
       = Err e ->
     scanPages (S fuel) cfg cli p page st =
       ([EvListCommits (Number (pr p)) page (status st)],
        Fatal ("checkPullRequest: err=" ++ e))) /\
  (forall sha rest st e,
     GetCommit cli (OwnerLogin (repo p)) (RepoName (repo p)) sha = Err e ->
     scanCommits cfg cli p (sha :: rest) st =
       ([EvGetCommit sha], Fatal ("GetCommit: sha=" ++ sha ++ " err=" ++ e))) /\
  (forall msg,
     returned (scanPages fuel cfg cli p 0 initialState) = Fatal msg ->
     evaluate fuel cfg cli p =
       (trace (scanPages fuel cfg cli p 0 initialState), Fatal msg) /\
     count isWrite (trace (evaluate fuel cfg cli p)) = O /\
     count isIssueEvent (trace (evaluate fuel cfg cli p)) = O).
Proof.
  split; [|split].
  - intros page st e Hweak Hlist. cbn [scanPages]. rewrite Hweak.
    unfold remote. rewrite Hlist. reflexivity.
  - intros sha rest st e Hget. cbn [scanCommits].
    rewrite (examine_GetCommit_error _ _ _ _ _ _ Hget). reflexivity.
  - intros msg Hscan.
    rewrite evaluate_scan_incomplete by (rewrite Hscan; discriminate).
    rewrite Hscan. split; [reflexivity|]. cbn [trace fst].
    split; [apply (scan_writes_nothing fuel cfg cli p 0 initialState)|].
    apply count_none_scan; [|apply scan_reads_only].
    intros []; (discriminate || reflexivity).
Qed.

(** A server that cannot be reached: one call, no write. *)
Lemma scan_failure_is_fatal_witness :
  evaluate 10 plainConfig unreachableClient samplePR =
    (trace (scanPages 10 plainConfig unreachableClient samplePR 0 initialState),
     Fatal "checkPullRequest: err=connection refused") /\
  count isWrite (trace (evaluate 10 plainConfig unreachableClient samplePR)) = O /\
  count isIssueEvent (trace (evaluate 10 plainConfig unreachableClient samplePR)) = O.
Proof.
  apply (proj2 (proj2 (scan_failure_is_fatal 10 plainConfig unreachableClient samplePR))).
  vm_compute. reflexivity.
Defined.

(** ** The verdict on a pull request, by its commits *)





(** ** Numbers in decimal: [%d] and [strconv.Atoi] *)






(** [%d] prints different numbers differently. *)
Lemma Itoa_inj n n' : strconv.Itoa n = strconv.Itoa n' -> n = n'.
Proof.
  unfold strconv.Itoa. intros H. apply DecimalZ.to_int_inj.
  assert (Hok : forall z, Z.to_int z <> Decimal.Pos Decimal.Nil /\
                          Z.to_int z <> Decimal.Neg Decimal.Nil).
  { intros [|p|p]; cbn; split; try discriminate;
      intros [= Hp]; exact (DecimalPos.Unsigned.to_uint_nonnil p Hp). }
  apply (f_equal DecimalString.NilZero.int_of_string) in H.
  rewrite !DecimalString.NilZero.isi in H by apply Hok.
  injection H as H. exact H.
Qed.

(** ** More on the debounce cache *)

Lemma append_cancel_l (a s t : string) : a ++ s = a ++ t -> s = t.
Proof.
  induction a as [|c a IH]; intros H; [exact H|].
  apply IH. change (String c (a ++ s) = String c (a ++ t)) in H.
  injection H as H. exact H.
Qed.

Lemma debounce_result p r now (m : gmap string Z) :
  fst (debounce p r now m) =
  match purge now m !! debounceKey p r with
  | None => false
  | Some when => time.Sub now when <=? debounceInterval
  end.
Proof. unfold debounce. destruct (purge now m !! debounceKey p r); reflexivity. Qed.

Lemma debounce_cache_other p r now (m : gmap string Z) k :
  k <> debounceKey p r ->
  snd (debounce p r now m) !! k = purge now m !! k.
Proof.
  intros Hk. unfold debounce.
  destruct (purge now m !! debounceKey p r); cbn [snd]; [reflexivity|].
  rewrite lookup_insert_ne; [reflexivity|congruence].
Qed.

(** After a call of [debounce] at the instant [now], the key of the pull
    request is in the cache, no entry of the cache is older than the
    interval, and every entry but the one of the key was there before. *)
Theorem debounce_cache_invariant p r now (m : gmap string Z) :
  let m' := snd (debounce p r now m) in
  is_Some (m' !! debounceKey p r) /\
  (forall k when, m' !! k = Some when -> now - when <= debounceInterval) /\
  (forall k when, k <> debounceKey p r -> m' !! k = Some when -> m !! k = Some when).
Proof.
  cbn zeta. split; [|split].
  - unfold debounce. destruct (purge now m !! debounceKey p r) as [when|] eqn:Hk;
      cbn [snd]; [rewrite Hk; eauto|]. rewrite lookup_insert_eq. eauto.
  - intros k when. unfold debounce.
    destruct (purge now m !! debounceKey p r) as [w|] eqn:Hk; cbn [snd].
    + rewrite purge_lookup. destruct (m !! k) as [w'|]; [|discriminate].
      destruct (decide (debounceInterval < now - w')); [discriminate|].
      intros [= <-]. lia.
    + destruct (decide (k = debounceKey p r)) as [->|Hne].
      * rewrite lookup_insert_eq. intros [= <-].
        unfold debounceInterval, time.Second. lia.
      * rewrite lookup_insert_ne by congruence. rewrite purge_lookup.
        destruct (m !! k) as [w'|]; [|discriminate].
        destruct (decide (debounceInterval < now - w')); [discriminate|].
        intros [= <-]. lia.
  - intros k when Hne. rewrite (debounce_cache_other _ _ _ _ _ Hne), purge_lookup.
    destruct (m !! k) as [w'|]; [|discriminate].
    destruct (decide (debounceInterval < now - w')); [discriminate|]. exact id.
Qed.

(** The keys of two pull requests of one repository are equal only if
    their numbers are; and a call of [debounce] for one pull request does
    not change what a later call answers for a pull request with another
    key. *)
Theorem debounce_other_pull_request p r now (m : gmap string Z) :
  (forall p', debounceKey p' r = debounceKey p r -> Number p' = Number p) /\
  (forall p' r' later,
     debounceKey p' r' <> debounceKey p r ->
     now <= later ->
     fst (debounce p' r' later (snd (debounce p r now m)))
       = fst (debounce p' r' later m)).
Proof.
  split.
  - intros p' Hkey. unfold debounceKey in Hkey.
    apply append_cancel_l in Hkey. apply (append_cancel_l "#") in Hkey.
    apply Itoa_inj. exact Hkey.
  - intros p' r' later Hne Hle. rewrite !debounce_result.
    rewrite (purge_lookup later (snd (debounce p r now m))).
    rewrite (debounce_cache_other _ _ _ _ _ Hne), !purge_lookup.
    destruct (m !! debounceKey p' r') as [w|]; [|reflexivity].
    destruct (decide (debounceInterval < now - w)) as [Hs|Hs];
      destruct (decide (debounceInterval < later - w)); try reflexivity.
    lia.
Qed.

(** Two deliveries for the same pull request: when its key is absent
    from the cache, or stale in it, the first delivery is evaluated, and
    a second delivery within the interval makes no remote call at all. *)
Theorem duplicate_delivery_is_not_evaluated
    fuel cfg cli p r now later (cache : gmap string Z) :
  cache !! debounceKey p r = None \/
  (exists when, cache !! debounceKey p r = Some when /\ debounceInterval < now - when) ->
  later - now <= debounceInterval ->
  let first := checkPullRequest fuel cfg cli p r now cache in
  let second := checkPullRequest fuel cfg cli p r later (fst first) in
  trace (snd first) = trace (evaluate fuel cfg cli {| repo := r; pr := p |}) /\
  snd second = ([], Done None) /\
  fst second !! debounceKey p r = Some now.
Proof.
  intros Hkey Hlate.
  assert (Hfirst : debounce p r now cache
                   = (false, <[debounceKey p r := now]> (purge now cache))).
  { apply debounce_absent. rewrite purge_lookup.
    destruct Hkey as [->|(when & -> & Hs)]; [reflexivity|].
    destruct (decide (debounceInterval < now - when)); [reflexivity|lia]. }
  assert (Hsecond : debounce p r later (<[debounceKey p r := now]> (purge now cache))
                    = (true, purge later (<[debounceKey p r := now]> (purge now cache)))).
  { apply (debounce_present _ _ _ _ now); [apply lookup_insert_eq|exact Hlate]. }
  unfold checkPullRequest. rewrite Hfirst. cbn [fst snd]. rewrite Hsecond.
  cbn [fst snd]. split; [|split; [reflexivity|]].
  - rewrite trace_bind. destruct (returned (evaluate _ _ _ _)); cbn; apply app_nil_r.
  - rewrite purge_lookup, lookup_insert_eq.
    destruct (decide (debounceInterval < later - now)); [lia|reflexivity].
Qed.

Lemma duplicate_delivery_is_not_evaluated_witness :
  let first := checkPullRequest 10 plainConfig (sampleClient [["f66"]])
                 (pr samplePR) sampleRepo 0 ∅ in
  let second := checkPullRequest 10 plainConfig (sampleClient [["f66"]])
                  (pr samplePR) sampleRepo (2 * time.Second) (fst first) in
  trace (snd first) = trace (evaluate 10 plainConfig (sampleClient [["f66"]])
                               {| repo := sampleRepo; pr := pr samplePR |}) /\
  snd second = ([], Done None) /\
  fst second !! debounceKey (pr samplePR) sampleRepo = Some 0.
Proof.
  apply (duplicate_delivery_is_not_evaluated 10 plainConfig (sampleClient [["f66"]])
           (pr samplePR) sampleRepo 0 (2 * time.Second) ∅).
  - left. apply lookup_empty.
  - vm_compute. discriminate.
Defined.

Lemma debounce_other_pull_request_witness :
  let p := {| Number := 7; UserLogin := "alice"; HeadSHA := "c0ffee" |} in
  let p' := {| Number := 8; UserLogin := "bob"; HeadSHA := "decade" |} in
  fst (debounce p' sampleRepo time.Second (snd (debounce p sampleRepo 0 ∅)))
    = fst (debounce p' sampleRepo time.Second ∅).
Proof.
  apply (proj2 (debounce_other_pull_request
                  {| Number := 7; UserLogin := "alice"; HeadSHA := "c0ffee" |}
                  sampleRepo 0 ∅)).
  - vm_compute. discriminate.
  - vm_compute. discriminate.
Defined.

(** ** The recognition pattern and the comment of the bot *)






























(** ** The title of a stub issue *)

Lemma issueTitle_inj a b : issueTitle a = issueTitle b -> a = b.
Proof.
  unfold issueTitle. intros H. apply append_cancel_l in H. apply Itoa_inj. exact H.
Qed.

(** [checkStubIssue] takes a listed issue for the stub of the pull
    request exactly by the title of that pull request: it returns the
    number of the first listed issue with the title, the titles of
    different pull requests differ, and a list of stubs of other pull
    requests gives none. *)
Theorem findTitle_by_title n issues :
  (forall k, findTitle (issueTitle n) issues = Some k <->
     exists pre i post,
       issues = (pre ++ i :: post)%list /\
       (forall j, In j pre -> IssueTitle j <> issueTitle n) /\
       IssueTitle i = issueTitle n /\ IssueNumber i = k) /\
  ((forall i, In i issues -> exists m, m <> n /\ IssueTitle i = issueTitle m) ->
   findTitle (issueTitle n) issues = None).
Proof.
  split.
  - induction issues as [|x issues IH]; intros k; cbn [findTitle].
    + split; [discriminate|]. intros (pre & i & post & H & _).
      destruct pre; discriminate H.
    + destruct (String.eqb_spec (IssueTitle x) (issueTitle n)) as [Heq|Hneq].
      * split.
        -- intros [= <-]. exists [], x, issues. repeat split; [|exact Heq].
           intros j [].
        -- intros (pre & i & post & H & Hpre & Hi & Hk).
           destruct pre as [|y pre]; cbn [app] in H; injection H as Hx _.
           ++ rewrite Hx, Hk. reflexivity.
           ++ exfalso. apply (Hpre y (or_introl eq_refl)). rewrite <- Hx. exact Heq.
      * rewrite IH. split.
        -- intros (pre & i & post & -> & Hpre & Hi & Hk).
           exists (x :: pre), i, post. repeat split; try assumption.
           intros j [<-|Hj]; [exact Hneq|exact (Hpre j Hj)].
        -- intros (pre & i & post & H & Hpre & Hi & Hk).
           destruct pre as [|y pre]; cbn [app] in H; injection H as Hx Hrest.
           ++ exfalso. apply Hneq. rewrite Hx. exact Hi.
           ++ exists pre, i, post. repeat split; try assumption.
              intros j Hj. apply Hpre. right. exact Hj.
  - induction issues as [|x issues IH]; intros Hall; [reflexivity|].
    cbn [findTitle]. destruct (String.eqb_spec (IssueTitle x) (issueTitle n)) as [Heq|Hneq].
    + destruct (Hall x (or_introl eq_refl)) as (m & Hm & Ht).
      rewrite Ht in Heq. apply issueTitle_inj in Heq. congruence.
    + apply IH. intros i Hi. apply Hall. right. exact Hi.
Qed.

Lemma findTitle_by_title_witness :
  findTitle (issueTitle 7)
    [{| IssueNumber := 40; IssueTitle := issueTitle 6 |};
     {| IssueNumber := 41; IssueTitle := issueTitle 77 |}] = None.
Proof.
  apply (proj2 (findTitle_by_title 7 _)).
  intros i [<-|[<-|[]]]; [exists 6|exists 77]; split; (lia || reflexivity).
Defined.

(** ** The webhook handler *)

(** [handleWebhook] counts every request.  It checks a pull request only
    for a request with the method POST or PUT whose payload is valid and
    parses as a pull-request event: for any other request it makes no
    remote call and leaves the debounce cache and the count of pull
    requests as they are, and it answers 405 for another method, 401 for
    an invalid payload and 400 for a payload that does not parse. *)
Theorem handleWebhook_gate lib secret fuel cfg cli now st r :
  let out := handleWebhook lib secret fuel cfg cli now st r in
  let st' := fst (fst out) in
  let accepted :=
    (Method r = "POST" \/ Method r = "PUT") /\
    exists payload p rp,
      ValidatePayload lib r secret = Ok payload /\
      ParseWebHook lib (WebHookType lib r) payload = Ok (PullRequestEvent p rp) in
  webhookWakeups st' = wrapInt (webhookWakeups st + 1) /\
  (trace (snd out) <> [] \/ debounceCache st' <> debounceCache st \/
   pullsChecked st' <> pullsChecked st -> accepted) /\
  (Method r <> "POST" -> Method r <> "PUT" ->
   snd (fst out) = HttpError "method not allowed" 405) /\
  (Method r = "POST" \/ Method r = "PUT" ->
   (forall e, ValidatePayload lib r secret = Err e ->
      snd (fst out) = HttpError "webhook signature bad" 401) /\
   (forall payload e,
      ValidatePayload lib r secret = Ok payload ->
      ParseWebHook lib (WebHookType lib r) payload = Err e ->
      snd (fst out) = HttpError "could not parse payload" 400) /\
   (forall payload p rp,
      ValidatePayload lib r secret = Ok payload ->
      ParseWebHook lib (WebHookType lib r) payload = Ok (PullRequestEvent p rp) ->
      out = ({| webhookWakeups := wrapInt (webhookWakeups st + 1);
                pullsChecked := wrapInt (pullsChecked st + 1);
                debounceCache :=
                  fst (checkPullRequest fuel cfg cli p rp now (debounceCache st)) |},
             NoError,
             snd (checkPullRequest fuel cfg cli p rp now (debounceCache st))))).
Proof.
  cbn zeta. unfold handleWebhook.
  assert (Hmethod : negb (String.eqb (Method r) "POST")
                    && negb (String.eqb (Method r) "PUT") = false
                    <-> Method r = "POST" \/ Method r = "PUT").
  { destruct (String.eqb_spec (Method r) "POST");
      destruct (String.eqb_spec (Method r) "PUT"); cbn; intuition congruence. }
  destruct (negb (String.eqb (Method r) "POST") && negb (String.eqb (Method r) "PUT"))
    eqn:Hm.
  { assert (Hno : ~ (Method r = "POST" \/ Method r = "PUT")).
    { intros H. apply Hmethod in H. discriminate H. }
    cbn. split; [reflexivity|]. split; [intros [H|[H|H]]; congruence|].
    split; [reflexivity|]. intros H. contradiction. }
  pose proof (proj1 Hmethod eq_refl) as Hok.
  assert (Hnot : Method r <> "POST" -> Method r <> "PUT" -> False)
    by (destruct Hok; congruence).
  destruct (ValidatePayload lib r secret) as [payload|e] eqn:Hv.
  2:{ cbn. split; [reflexivity|]. split; [intros [H|[H|H]]; congruence|].
      split; [intros H1 H2; destruct (Hnot H1 H2)|]. intros _.
      split; [reflexivity|]. split; intros; congruence. }
  destruct (ParseWebHook lib (WebHookType lib r) payload) as [[p rp|]|e] eqn:Hp.
  - cbn [debounceCache webhookWakeups pullsChecked].
    destruct (checkPullRequest fuel cfg cli p rp now (debounceCache st))
      as [cache m] eqn:Hc.
    cbn. split; [reflexivity|]. split.
    { intros _. split; [exact Hok|]. exists payload, p, rp.
      split; [reflexivity|exact Hp]. }
    split; [intros H1 H2; destruct (Hnot H1 H2)|]. intros _.
    split; [intros e He; discriminate He|].
    split; [intros payload' e Hv' Hp'; injection Hv' as <-; congruence|].
    intros payload' p' rp' Hv' He. injection Hv' as <-.
    rewrite Hp in He. injection He as <- <-. rewrite Hc. reflexivity.
  - cbn. split; [reflexivity|]. split; [intros [H|[H|H]]; congruence|].
    split; [intros H1 H2; destruct (Hnot H1 H2)|]. intros _.
    split; [intros e He; discriminate He|].
    split; [intros payload' e Hv' Hp'; injection Hv' as <-; congruence|].
    intros payload' p' rp' Hv' He. injection Hv' as <-. congruence.
  - cbn. split; [reflexivity|]. split; [intros [H|[H|H]]; congruence|].
    split; [intros H1 H2; destruct (Hnot H1 H2)|]. intros _.
    split; [intros e' He; discriminate He|].
    split; [reflexivity|].
    intros payload' p' rp' Hv' He. injection Hv' as <-. congruence.
Qed.

(** A GET request, and a POST request signed with another secret. *)
Lemma handleWebhook_gate_witness :
  let st := {| webhookWakeups := 0; pullsChecked := 0; debounceCache := ∅ |} in
  let get := {| Method := "GET"; Delivery := "s3cret{...}" |} in
  let post := {| Method := "POST"; Delivery := "guess{...}" |} in
  snd (fst (handleWebhook sampleLibrary "s3cret" 10 plainConfig
              (sampleClient [["f66"]]) 0 st get))
    = HttpError "method not allowed" 405 /\
  snd (fst (handleWebhook sampleLibrary "s3cret" 10 plainConfig
              (sampleClient [["f66"]]) 0 st post))
    = HttpError "webhook signature bad" 401.
Proof.
  split.
  - apply (handleWebhook_gate sampleLibrary "s3cret" 10 plainConfig
             (sampleClient [["f66"]]) 0
             {| webhookWakeups := 0; pullsChecked := 0; debounceCache := ∅ |}
             {| Method := "GET"; Delivery := "s3cret{...}" |}); discriminate.
  - pose proof (handleWebhook_gate sampleLibrary "s3cret" 10 plainConfig
                  (sampleClient [["f66"]]) 0
                  {| webhookWakeups := 0; pullsChecked := 0; debounceCache := ∅ |}
                  {| Method := "POST"; Delivery := "guess{...}" |})
      as (_ & _ & _ & H).
    apply (proj1 (H (or_introl eq_refl)) "payload signature check failed").
    reflexivity.
Defined.

(** ** The linking verbs *)

Lemma HasPrefix_longer_false s a b :
  strings.HasPrefix s a = false -> strings.HasPrefix s (a ++ b) = false.
Proof.
  revert s. induction a as [|c a IH]; intros s H; [discriminate H|].
  change (String c a ++ b) with (String c (a ++ b)).
  destruct s as [|x s]; [reflexivity|]. cbn [strings.HasPrefix] in *.
  destruct (Ascii.eqb x c); [|reflexivity]. cbn [andb] in *. apply IH. exact H.
Qed.

Lemma beginsWithVerb_stems (line : string) :
  beginsWithVerb line
  = existsb (fun stem => strings.HasPrefix (strings.ToLower line) stem) verbStems.
Proof.
  unfold beginsWithVerb, verbs, verbStems. cbn [existsb].
  set (l := strings.ToLower line).
  destruct (strings.HasPrefix l "close") eqn:H1; [reflexivity|].
  assert (strings.HasPrefix l "closes" = false) as ->
    by exact (HasPrefix_longer_false l "close" "s" H1).
  assert (strings.HasPrefix l "closed" = false) as ->
    by exact (HasPrefix_longer_false l "close" "d" H1).
  cbn [orb].
  destruct (strings.HasPrefix l "fix") eqn:H2; [reflexivity|].
  assert (strings.HasPrefix l "fixes" = false) as ->
    by exact (HasPrefix_longer_false l "fix" "es" H2).
  assert (strings.HasPrefix l "fixed" = false) as ->
    by exact (HasPrefix_longer_false l "fix" "ed" H2).
  cbn [orb].
  destruct (strings.HasPrefix l "resolve") eqn:H3; [reflexivity|].
  assert (strings.HasPrefix l "resolves" = false) as ->
    by exact (HasPrefix_longer_false l "resolve" "s" H3).
  assert (strings.HasPrefix l "resolved" = false) as ->
    by exact (HasPrefix_longer_false l "resolve" "d" H3).
  reflexivity.
Qed.

(** The loop over the verbs asks for a prefix of the line, not for a
    word: it reaches [return prLinked] exactly for a lower-cased line
    that begins with [close], [fix], [resolve], [updates] or [for] and
    contains [#] or [github.com] -- the six other verbs of the list add
    nothing.  So a message with such a line, say [Format the code (#12)],
    whose first line does not start with [Revert], is [prLinked]. *)
Theorem verbs_are_prefixes :
  (forall lower,
     scanVerbs lower verbs =
     existsb (fun stem => strings.HasPrefix lower stem) verbStems &&
     (strings.Contains lower "#" || strings.Contains lower "github.com")) /\
  (forall message line stem,
     strings.HasPrefix (firstLine message) "Revert" = false ->
     In line (strings.Split message newline) ->
     In stem verbStems ->
     strings.HasPrefix (strings.ToLower line) stem = true ->
     strings.Contains (strings.ToLower line) "#" ||
     strings.Contains (strings.ToLower line) "github.com" = true ->
     checkCommitMessage message = prLinked).
Proof.
  split.
  - intros lower. rewrite scanVerbs_spec. f_equal.
    unfold verbs, verbStems. cbn [existsb].
    destruct (strings.HasPrefix lower "close") eqn:H1; [reflexivity|].
    assert (strings.HasPrefix lower "closes" = false) as ->
      by exact (HasPrefix_longer_false lower "close" "s" H1).
    assert (strings.HasPrefix lower "closed" = false) as ->
      by exact (HasPrefix_longer_false lower "close" "d" H1).
    cbn [orb].
    destruct (strings.HasPrefix lower "fix") eqn:H2; [reflexivity|].
    assert (strings.HasPrefix lower "fixes" = false) as ->
      by exact (HasPrefix_longer_false lower "fix" "es" H2).
    assert (strings.HasPrefix lower "fixed" = false) as ->
      by exact (HasPrefix_longer_false lower "fix" "ed" H2).
    cbn [orb].
    destruct (strings.HasPrefix lower "resolve") eqn:H3; [reflexivity|].
    assert (strings.HasPrefix lower "resolves" = false) as ->
      by exact (HasPrefix_longer_false lower "resolve" "s" H3).
    assert (strings.HasPrefix lower "resolved" = false) as ->
      by exact (HasPrefix_longer_false lower "resolve" "d" H3).
    reflexivity.
  - intros message line stem Hrev Hin Hstem Hpre Hmark.
    rewrite checkCommitMessage_classify. unfold classifyMessage. rewrite Hrev.
    assert (existsb qualifies (strings.Split message newline) = true) as ->;
      [|reflexivity].
    apply existsb_exists. exists line. split; [exact Hin|].
    unfold qualifies, hasMarker. rewrite Hmark, beginsWithVerb_stems.
    apply andb_true_intro. split; [|reflexivity].
    apply existsb_exists. exists stem. split; assumption.
Qed.

Lemma verbs_are_prefixes_witness :
  checkCommitMessage "Format the code (#12)" = prLinked.
Proof.
  apply (proj2 verbs_are_prefixes "Format the code (#12)" "Format the code (#12)" "for").
  - reflexivity.
  - vm_compute. left. reflexivity.
  - vm_compute. tauto.
  - reflexivity.
  - reflexivity.
Defined.

Example format_line_is_linked :
  checkCommitMessage "Forget about github.com" = prLinked /\
  checkCommitMessage "Update the docs (#12)" = prFailed.
Proof. vm_compute. repeat split. Qed.

(** ** A pattern without a subexpression, in the scan *)

Lemma checkCommitMetadata_index_panic cfg re c a uName uEmail m :
  botAuthorRE cfg = Some re ->
  regexp.NumSubexp re = O ->
  Author c = Some a -> Name a = Some uName -> Email a = Some uEmail ->
  strings.Contains uName "[bot]" = false ->
  regexp.FindStringSubmatch re uEmail = Some m ->
  checkCommitMetadata cfg c = Panic "index out of range".
Proof.
  intros Hre Hn Ha Hname Hemail Htag Hm.
  unfold checkCommitMetadata, GetName, isAutomationBotAuthor.
  rewrite Ha. destruct a as [n e]. cbn [Name Email] in *. subst n e.
  rewrite Htag, Hre, Hm.
  pose proof (FindStringSubmatch_length _ _ _ Hm) as Hlen. rewrite Hn in Hlen.
  destruct m as [|whole [|x m]]; [discriminate| |discriminate]. reflexivity.
Qed.

(** The metadata of a commit is checked whatever its message gives.
    Under a pattern without a parenthesized subexpression, the first
    commit whose author has an e-mail address that the pattern matches,
    and no [[bot]] in the name, ends the evaluation with a panic, also
    when its message links an issue; nothing is written. *)
Theorem scan_panics_on_bare_pattern fuel cfg cli p re sha rest next c a uName uEmail m :
  botAuthorRE cfg = Some re ->
  regexp.NumSubexp re = O ->
  ListCommits cli (OwnerLogin (repo p)) (RepoName (repo p)) (Number (pr p)) 0
    = Ok (sha :: rest, next) ->
  GetCommit cli (OwnerLogin (repo p)) (RepoName (repo p)) sha = Ok c ->
  Author c = Some a -> Name a = Some uName -> Email a = Some uEmail ->
  strings.Contains uName "[bot]" = false ->
  regexp.FindStringSubmatch re uEmail = Some m ->
  evaluate (S fuel) cfg cli p =
    ([EvListCommits (Number (pr p)) 0 prFailed; EvGetCommit sha],
     Panic "index out of range").
Proof.
  intros Hre Hn Hlist Hget Ha Hname Hemail Htag Hm.
  unfold evaluate. cbn [scanPages status]. change (status_leb prFailed prSkipped) with true.
  cbv iota. unfold remote. rewrite Hlist. cbn [bind scanCommits].
  unfold examine, remote. rewrite Hget. cbn [bind].
  rewrite (checkCommitMetadata_index_panic cfg re c a uName uEmail m
             Hre Hn Ha Hname Hemail Htag Hm).
  reflexivity.
Qed.

(** A commit that links an issue, by an author whose address the
    pattern [@example\.com$] matches. *)
Lemma scan_panics_on_bare_pattern_witness :
  evaluate 10 {| enableStubIssues := true; botAuthorRE := Some exampleDomainRE |}
    (sampleClient [["b22"]]) samplePR =
    ([EvListCommits (Number (pr samplePR)) 0 prFailed; EvGetCommit "b22"],
     Panic "index out of range").
Proof.
  apply (scan_panics_on_bare_pattern 9
           {| enableStubIssues := true; botAuthorRE := Some exampleDomainRE |}
           (sampleClient [["b22"]]) samplePR exampleDomainRE "b22" [] 0%nat
           (sampleCommits "b22") {| Name := Some "Alice"; Email := Some "dev@example.com" |}
           "Alice" "dev@example.com" ["@example.com"]); reflexivity.
Defined.
